(** * pydantic_graph: in-memory state persistence

    A shallow embedding of [pydantic_graph/persistence/memory.py]
    ([SimpleStatePersistence] and [FullStatePersistence]) together with the
    parts of the library it calls, and the properties of the persistence
    layer, the run loop and the graph validator.

    Python objects are mutable and shared by reference, so the embedding keeps
    an explicit store: one heap per class of object, a reference being an
    index into the heap of its class.  Heaps only grow (an object lives as
    long as it is referenced).  Every operation is a state transformer that
    may raise. *)

From Stdlib Require Import ZArith Ascii String.
From stdpp Require Import base option list strings pretty.

Local Open Scope Z_scope.
Local Open Scope nat_scope.

(** ** Python exceptions *)

(** The exception classes that occur.  [CancelledError], [KeyboardInterrupt],
    [SystemExit] and [GeneratorExit] derive from [BaseException] directly (for
    [asyncio.CancelledError] this is so since Python 3.8); the others derive
    from [Exception]. *)
Inductive exc_class :=
  | LookupError | AssertionError | TypeError | AttributeError | RuntimeError
  | NotImplementedError | GraphRuntimeError | GraphSetupError | DecodeError
  | CancelledError | KeyboardInterrupt | SystemExit | GeneratorExit.

Record exn := Exn { exn_class : exc_class; exn_msg : string }.

(** [isinstance(e, Exception)]: what an [except Exception:] clause catches. *)
Definition is_Exception (e : exn) : bool :=
  match exn_class e with
  | CancelledError | KeyboardInterrupt | SystemExit | GeneratorExit => false
  | _ => true
  end.

Inductive result (A : Type) :=
  | Ok (a : A)
  | Raise (e : exn).
Arguments Ok {A} a.
Arguments Raise {A} e.

(** A computation over a store [St]: the store is kept when it raises. *)
Definition Py (St A : Type) : Type := St → St * result A.

Definition ret {St A} (a : A) : Py St A := λ st, (st, Ok a).
Definition raise {St A} (e : exn) : Py St A := λ st, (st, Raise e).
Definition bind {St A B} (m : Py St A) (k : A → Py St B) : Py St B :=
  λ st, match m st with
        | (st', Ok a) => k a st'
        | (st', Raise e) => (st', Raise e)
        end.

Declare Scope py_scope.
Delimit Scope py_scope with py.
Notation "x <- m ;; k" := (bind m (λ x, k))
  (at level 100, m at next level, right associativity) : py_scope.
Notation "m ;; k" := (bind m (λ _, k))
  (at level 100, right associativity) : py_scope.

(** ** Values and objects *)

Abbreviation loc := nat.

(** The contents of user objects (a state, the fields of a node, the data of
    an [End]).  An object graph reachable from one state is flattened into
    one value: [copy.deepcopy] copies all of it. *)
#[warnings="-register-all"]
Inductive pyval :=
  | PNone
  | PInt (z : Z)
  | PStr (s : string)
  | PObj (cls : string) (fields : list (string * pyval)).

Global Instance pyval_inhabited : Inhabited pyval := populate PNone.

(** A node instance: the ID of its class ([get_node_id()]), its payload
    fields, and the snapshot ID it carries once one was allocated. *)
Record NodeObj := MkNode {
  node_id : string;
  node_fields : list (string * pyval);
  node_snapshot_id : option string }.

(** An [End] marker. *)
Record EndObj := MkEnd {
  end_data : pyval;
  end_snapshot_id : option string }.

Global Instance NodeObj_inhabited : Inhabited NodeObj := populate (MkNode "" [] None).
Global Instance EndObj_inhabited : Inhabited EndObj := populate (MkEnd PNone None).

Inductive SnapshotStatus := created | pending | running | success | error.

(** [NodeSnapshot] and [EndSnapshot]: references to the state (or [None]) and
    to the node or the [End]; timestamps in clock ticks. *)
Record NodeSnapshot := MkNodeSnapshot {
  ns_state : option loc;
  ns_node : loc;
  ns_start_ts : option Z;
  ns_duration : option Z;
  ns_status : SnapshotStatus;
  ns_id : string }.

Record EndSnapshot := MkEndSnapshot {
  es_state : option loc;
  es_result : loc;
  es_ts : Z;
  es_id : string }.

(** A reference to a snapshot object: the union [Snapshot]. *)
Inductive Snapshot :=
  | RNode (l : loc)
  | REnd (l : loc).

(** The types a codec is built from: [None], [int], [str] and dataclasses. *)
#[warnings="-register-all"]
Inductive pytype :=
  | TNone
  | TInt
  | TStr
  | TData (cls : string) (fields : list (string * pytype)).

(** ** The store *)

Record World := MkWorld {
  node_types : list (string * list (string * pytype));
                         (* the node classes registered for decoding *)
  states : list pyval;
  nodes : list NodeObj;
  ends : list EndObj;
  node_snaps : list NodeSnapshot;
  end_snaps : list EndSnapshot;
  id_counter : nat;      (* IDs handed out so far by [generate_snapshot_id] *)
  utc_clock : Z;         (* what [now_utc()] reads *)
  perf_clock : Z }.      (* what [perf_counter()] reads *)

Definition with_states (f : list pyval → list pyval) (w : World) : World :=
  MkWorld (node_types w) (f (states w)) (nodes w) (ends w) (node_snaps w) (end_snaps w)
          (id_counter w) (utc_clock w) (perf_clock w).
Definition with_nodes (f : list NodeObj → list NodeObj) (w : World) : World :=
  MkWorld (node_types w) (states w) (f (nodes w)) (ends w) (node_snaps w) (end_snaps w)
          (id_counter w) (utc_clock w) (perf_clock w).
Definition with_ends (f : list EndObj → list EndObj) (w : World) : World :=
  MkWorld (node_types w) (states w) (nodes w) (f (ends w)) (node_snaps w) (end_snaps w)
          (id_counter w) (utc_clock w) (perf_clock w).
Definition with_node_snaps (f : list NodeSnapshot → list NodeSnapshot) (w : World) : World :=
  MkWorld (node_types w) (states w) (nodes w) (ends w) (f (node_snaps w)) (end_snaps w)
          (id_counter w) (utc_clock w) (perf_clock w).
Definition with_end_snaps (f : list EndSnapshot → list EndSnapshot) (w : World) : World :=
  MkWorld (node_types w) (states w) (nodes w) (ends w) (node_snaps w) (f (end_snaps w))
          (id_counter w) (utc_clock w) (perf_clock w).
Definition with_id_counter (n : nat) (w : World) : World :=
  MkWorld (node_types w) (states w) (nodes w) (ends w) (node_snaps w) (end_snaps w)
          n (utc_clock w) (perf_clock w).
Definition advance_clocks (d : N) (w : World) : World :=
  MkWorld (node_types w) (states w) (nodes w) (ends w) (node_snaps w) (end_snaps w)
          (id_counter w) (utc_clock w + Z.of_N d) (perf_clock w + Z.of_N d).

Definition empty_world : World := MkWorld [] [] [] [] [] [] 0 0 0.

(** Attribute assignment on a snapshot object. *)
Definition set_node_snap (l : loc) (f : NodeSnapshot → NodeSnapshot) (w : World) : World :=
  with_node_snaps (alter f l) w.

Definition set_status (s : SnapshotStatus) (n : NodeSnapshot) : NodeSnapshot :=
  MkNodeSnapshot (ns_state n) (ns_node n) (ns_start_ts n) (ns_duration n) s (ns_id n).
Definition set_start_ts (t : Z) (n : NodeSnapshot) : NodeSnapshot :=
  MkNodeSnapshot (ns_state n) (ns_node n) (Some t) (ns_duration n) (ns_status n) (ns_id n).
Definition set_duration (d : Z) (n : NodeSnapshot) : NodeSnapshot :=
  MkNodeSnapshot (ns_state n) (ns_node n) (ns_start_ts n) (Some d) (ns_status n) (ns_id n).

Global Instance NodeSnapshot_inhabited : Inhabited NodeSnapshot :=
  populate (MkNodeSnapshot None 0 None None created "").
Global Instance EndSnapshot_inhabited : Inhabited EndSnapshot :=
  populate (MkEndSnapshot None 0 0%Z "").

(** [s.id] for a snapshot of either class. *)
Definition snapshot_id_of (w : World) (s : Snapshot) : string :=
  match s with
  | RNode l => ns_id (node_snaps w !!! l)
  | REnd l => es_id (end_snaps w !!! l)
  end.

(** ** Library functions used by [memory.py] *)

(** [_utils.now_utc()] and [time.perf_counter()] read the clocks; a [float]
    number of seconds is a whole number of clock ticks here. *)
Definition now_utc (w : World) : Z := utc_clock w.
Definition perf_counter (w : World) : Z := perf_clock w.

(** [copy.deepcopy(state)]: a new object with the same contents.  Every value
    of the model ([pyval]) can be copied; an object for which [copy.deepcopy]
    raises is not a value of the model, so what is proved of [snapshot_node]
    and [snapshot_end] with [deep_copy] on is proved for states, nodes and
    results that can be copied. *)
Definition deepcopy (l : loc) (w : World) : loc * World :=
  (length (states w), with_states (λ h, h ++ [states w !!! l]) w).

(** Modelled from the spec: the snapshot-ID allocator ([generate_snapshot_id],
    not in [memory.py]).  Section 4.B gives the scheme [{node_id}:{seq}] with a
    counter that starts at 1 and is incremented on every allocation.  The
    persistence classes hold no counter and pass none to the snapshot
    constructors, so the counter is in the store. *)
Definition generate_snapshot_id (node_id : string) (w : World) : string * World :=
  let seq := S (id_counter w) in
  (node_id +:+ ":" +:+ pretty seq, with_id_counter seq w).

(** Modelled from the spec: [BaseNode.get_snapshot_id], the [cursor.snapshot_id]
    of section 4.E.  A node keeps the ID allocated for it: [record_run] is
    called with the ID of the cursor, and the snapshot of the cursor, which
    holds the cursor or a clone of it, has to have that ID. *)
Definition node_get_snapshot_id (l : loc) (w : World) : string * World :=
  let n := nodes w !!! l in
  match node_snapshot_id n with
  | Some i => (i, w)
  | None =>
      let '(i, w1) := generate_snapshot_id (node_id n) w in
      (i, with_nodes (alter (λ n, MkNode (node_id n) (node_fields n) (Some i)) l) w1)
  end.

(** Modelled from the spec: [End.get_snapshot_id]; the ID is [end:{seq}]. *)
Definition end_get_snapshot_id (l : loc) (w : World) : string * World :=
  let e := ends w !!! l in
  match end_snapshot_id e with
  | Some i => (i, w)
  | None =>
      let '(i, w1) := generate_snapshot_id "end" w in
      (i, with_ends (alter (λ e, MkEnd (end_data e) (Some i)) l) w1)
  end.

(** Modelled from the spec: [BaseNode.deep_copy] (section 4.A, an independent
    clone of the payload): a new object with the attributes of the node as
    they are, the snapshot ID among them if the node has one.  The node
    itself and the allocator are left alone. *)
Definition node_deep_copy (l : loc) (w : World) : loc * World :=
  (length (nodes w), with_nodes (λ h, h ++ [nodes w !!! l]) w).

(** Modelled from the spec: [End.deep_copy_data] (section 3, a structural copy
    of the data): a new marker with the attributes of the marker as they
    are.  The marker itself and the allocator are left alone. *)
Definition end_deep_copy_data (l : loc) (w : World) : loc * World :=
  (length (ends w), with_ends (λ h, h ++ [ends w !!! l]) w).

(** Modelled from the spec: the constructor [NodeSnapshot(state=, node=)]
    (section 3): status [created], no timing yet, the ID of the node. *)
Definition new_NodeSnapshot (state : option loc) (node : loc) (w : World) : loc * World :=
  let '(i, w1) := node_get_snapshot_id node w in
  (length (node_snaps w1),
   with_node_snaps (λ h, h ++ [MkNodeSnapshot state node None None created i]) w1).

(** Modelled from the spec: the constructor [EndSnapshot(state=, result=)]
    (section 3): [ts] is the time of creation, the ID that of the marker. *)
Definition new_EndSnapshot (state : option loc) (res : loc) (w : World) : loc * World :=
  let '(i, w1) := end_get_snapshot_id res w in
  (length (end_snaps w1),
   with_end_snaps (λ h, h ++ [MkEndSnapshot state res (now_utc w1) i]) w1).

(** [repr] of a [str], as the format [{snapshot_id!r}] gives it.  The text is
    put between single quotes, or between double quotes when it has a single
    quote and no double quote; a backslash and the quote in use are escaped
    with a backslash; tab, newline and carriage return are written [\t],
    [\n] and [\r]; any other control character (below 32, and 127) is
    written [\x] and two hexadecimal digits; every other character stands
    for itself.  This is [repr] exactly on strings of ASCII characters
    ([is_ascii]); a character from 128 on is a byte of the UTF-8 form of a
    character, which is taken to be printable. *)
Definition squote : ascii := "'"%char.
Definition dquote : ascii := "034"%char.
Definition backslash : ascii := "092"%char.

Fixpoint has_char (c : ascii) (s : string) : bool :=
  match s with
  | EmptyString => false
  | String c' s' => bool_decide (c' = c) || has_char c s'
  end.

Definition hex_digit (n : nat) : ascii :=
  ascii_of_nat (if n <? 10 then 48 + n else 87 + n).

Definition printable (n : nat) : bool := negb ((n <? 32) || (n =? 127)).

Fixpoint is_ascii (s : string) : bool :=
  match s with
  | EmptyString => true
  | String c s' => (nat_of_ascii c <? 128) && is_ascii s'
  end.

Definition repr_char (q c : ascii) : string :=
  let n := nat_of_ascii c in
  if bool_decide (c = q) || bool_decide (c = backslash) then String backslash (String c "")
  else if n =? 9 then String backslash "t"
  else if n =? 10 then String backslash "n"
  else if n =? 13 then String backslash "r"
  else if printable n then String c ""
  else String backslash (String "x" (String (hex_digit (n / 16))
                                        (String (hex_digit (n mod 16)) ""))).

Fixpoint repr_chars (q : ascii) (s : string) : string :=
  match s with
  | EmptyString => ""
  | String c s' => repr_char q c +:+ repr_chars q s'
  end.

Definition py_repr (s : string) : string :=
  let q := if has_char squote s && negb (has_char dquote s) then dquote else squote in
  String q (repr_chars q s +:+ String q "").

(** ** [SimpleStatePersistence] *)

Module SimpleStatePersistence.

Record t := Mk {
  deep_copy : bool;
  last_snapshot : option Snapshot }.

(** The dataclass defaults. *)
Definition new : t := Mk false None.

Definition St : Type := t * World.

Definition prep_state (self : t) (state : option loc) (w : World) : option loc * World :=
  if negb (deep_copy self) || bool_decide (state = None) then (state, w)
  else match state with
       | Some l => let '(l', w') := deepcopy l w in (Some l', w')
       | None => (state, w)
       end.

Definition snapshot_node (state : option loc) (next_node : loc) : Py St unit :=
  λ '(self, w),
    let '(st, w1) := prep_state self state w in
    let '(nd, w2) := if deep_copy self then node_deep_copy next_node w1
                     else (next_node, w1) in
    let '(s, w3) := new_NodeSnapshot st nd w2 in
    ((Mk (deep_copy self) (Some (RNode s)), w3), Ok tt).

Definition snapshot_end (state : option loc) (end_ : loc) : Py St unit :=
  λ '(self, w),
    let '(st, w1) := prep_state self state w in
    let '(r, w2) := if deep_copy self then end_deep_copy_data end_ w1
                    else (end_, w1) in
    let '(s, w3) := new_EndSnapshot st r w2 in
    ((Mk (deep_copy self) (Some (REnd s)), w3), Ok tt).

(** [self.last_snapshot.<attr> = v], reading [self.last_snapshot] anew.  On
    [None] the assignment raises [AttributeError]; on an [EndSnapshot] it
    adds an instance attribute and leaves the declared fields as they are. *)
Definition set_last (attr : string) (f : NodeSnapshot → NodeSnapshot) : Py St unit :=
  λ '(self, w),
    match last_snapshot self with
    | Some (RNode l) => ((self, set_node_snap l f w), Ok tt)
    | Some (REnd _) => ((self, w), Ok tt)
    | None => ((self, w), Raise (Exn AttributeError
                 ("'NoneType' object has no attribute '" +:+ attr +:+ "'")))
    end.

Definition get_perf : Py St Z := λ '(self, w), ((self, w), Ok (perf_counter w)).
Definition get_utc : Py St Z := λ '(self, w), ((self, w), Ok (now_utc w)).

(** The context manager [record_run(snapshot_id)] around [body]: the code up
    to [yield] runs on entry, [body] is the block of the [async with], the
    [except Exception] and [else] clauses run on exit. *)
Definition record_run {A} (snapshot_id : string) (body : Py St A) : Py St A :=
  λ '(self, w),
    match last_snapshot self with
    | None => ((self, w), Raise (Exn AssertionError "No snapshot to record"))
    | Some (REnd _) =>
        ((self, w), Raise (Exn AssertionError "Only NodeSnapshot can be recorded"))
    | Some (RNode l) =>
        let sid := ns_id (node_snaps w !!! l) in
        if negb (bool_decide (snapshot_id = sid)) then
          ((self, w), Raise (Exn AssertionError
             ("snapshot_id must match the last snapshot ID: "
              +:+ py_repr snapshot_id +:+ " != " +:+ py_repr sid)))
        else
          (set_last "status" (set_status running) ;;
           now <- get_utc ;;
           set_last "start_ts" (set_start_ts now) ;;
           start <- get_perf ;;
           λ st, match body st with
                 | (st', Raise e) =>
                     if is_Exception e then
                       (stop <- get_perf ;;
                        set_last "duration" (set_duration (stop - start)) ;;
                        set_last "status" (set_status error) ;;
                        raise e)%py st'
                     else (st', Raise e)
                 | (st', Ok a) =>
                     (stop <- get_perf ;;
                      set_last "duration" (set_duration (stop - start)) ;;
                      set_last "status" (set_status success) ;;
                      ret a)%py st'
                 end)%py (self, w)
    end.

Definition restore : Py St (option Snapshot) :=
  λ '(self, w), ((self, w), Ok (last_snapshot self)).

End SimpleStatePersistence.

(** ** The snapshot codec *)

(** A JSON document.  [JTime t] stands for the ISO-8601 UTC text of the
    instant [t]; a number is a whole number of clock ticks. *)
#[warnings="-register-all"]
Inductive json :=
  | JNull
  | JBool (b : bool)
  | JNum (z : Z)
  | JStr (s : string)
  | JTime (t : Z)
  | JArr (items : list json)
  | JObj (members : list (string * json)).

(** The member of a JSON object under a key; of two members with one key the
    later one counts. *)
Fixpoint assoc {A} (k : string) (l : list (string * A)) : option A :=
  match l with
  | [] => None
  | (k', v) :: l' =>
      match assoc k l' with
      | Some v' => Some v'
      | None => if bool_decide (k = k') then Some v else None
      end
  end.

Definition digit_of (c : ascii) : option Z :=
  let n := nat_of_ascii c in
  if (48 <=? n) && (n <=? 57) then Some (Z.of_nat (n - 48)) else None.

Fixpoint parse_digits (acc : Z) (s : string) : option Z :=
  match s with
  | EmptyString => Some acc
  | String c s' => d ← digit_of c; parse_digits (10 * acc + d)%Z s'
  end.

(** The text of an integer, which the codec accepts where an [int] is
    expected ([test_dump_load_state] loads ['data': '42'] as [42]). *)
Definition parse_int (s : string) : option Z :=
  match s with
  | EmptyString => None
  | String "-" EmptyString => None
  | String "-" s' => Z.opp <$> parse_digits 0 s'
  | _ => parse_digits 0 s
  end.

(** Serialization of a user value. *)
Fixpoint to_json (v : pyval) : json :=
  match v with
  | PNone => JNull
  | PInt z => JNum z
  | PStr s => JStr s
  | PObj _ fs => JObj (map (λ kv, (kv.1, to_json kv.2)) fs)
  end.

(** Validation of a JSON value against a type. *)
Fixpoint validate (t : pytype) (j : json) : option pyval :=
  match t with
  | TNone => match j with JNull => Some PNone | _ => None end
  | TInt => match j with
            | JNum z => Some (PInt z)
            | JStr s => PInt <$> parse_int s
            | _ => None
            end
  | TStr => match j with JStr s => Some (PStr s) | _ => None end
  | TData cls fts =>
      match j with
      | JObj kvs =>
          PObj cls <$>
            (fix fields (fts : list (string * pytype)) : option (list (string * pyval)) :=
               match fts with
               | [] => Some []
               | (k, ft) :: fts' =>
                   jv ← assoc k kvs; v ← validate ft jv; vs ← fields fts';
                   Some ((k, v) :: vs)
               end) fts
      | _ => None
      end
  end.

Definition validate_fields (fts : list (string * pytype)) (kvs : list (string * json))
    : option (list (string * pyval)) :=
  (fix fields (fts : list (string * pytype)) : option (list (string * pyval)) :=
     match fts with
     | [] => Some []
     | (k, ft) :: fts' =>
         jv ← assoc k kvs; v ← validate ft jv; vs ← fields fts';
         Some ((k, v) :: vs)
     end) fts.

(** Modelled from the spec: the codec that [build_snapshot_list_type_adapter]
    returns (it is not in [memory.py]): section 4.C, built from the pair
    [(StateType, RunEndType)] and the registered node types. *)
Record TypeAdapter := MkTypeAdapter {
  ta_state_type : pytype;
  ta_run_end_type : pytype;
  ta_nodes : list (string * list (string * pytype)) }.

Definition build_snapshot_list_type_adapter (state_t run_end_t : pytype) (w : World)
    : TypeAdapter :=
  MkTypeAdapter state_t run_end_t (node_types w).

Definition status_name (s : SnapshotStatus) : string :=
  match s with
  | created => "created" | pending => "pending" | running => "running"
  | success => "success" | error => "error"
  end.

Definition status_of_name (s : string) : option SnapshotStatus :=
  if bool_decide (s = "created") then Some created
  else if bool_decide (s = "pending") then Some pending
  else if bool_decide (s = "running") then Some running
  else if bool_decide (s = "success") then Some success
  else if bool_decide (s = "error") then Some error
  else None.

(** The value of a state reference: [None], or the contents of the object. *)
Definition state_value (w : World) (state : option loc) : pyval :=
  match state with
  | None => PNone
  | Some l => states w !!! l
  end.

Definition opt_json {A} (f : A → json) (o : option A) : json :=
  match o with Some a => f a | None => JNull end.

(** Modelled from the spec: the JSON form of a snapshot, section 6 (the order
    of the members is that of the documents in [test_dump_load_state]). *)
Definition dump_snapshot (w : World) (s : Snapshot) : json :=
  match s with
  | RNode l =>
      let n := node_snaps w !!! l in
      let nd := nodes w !!! ns_node n in
      JObj [("state", to_json (state_value w (ns_state n)));
            ("node", JObj (("node_id", JStr (node_id nd))
                           :: map (λ kv, (kv.1, to_json kv.2)) (node_fields nd)));
            ("start_ts", opt_json JTime (ns_start_ts n));
            ("duration", opt_json JNum (ns_duration n));
            ("status", JStr (status_name (ns_status n)));
            ("kind", JStr "node");
            ("id", JStr (ns_id n))]
  | REnd l =>
      let e := end_snaps w !!! l in
      JObj [("state", to_json (state_value w (es_state e)));
            ("result", JObj [("data", to_json (end_data (ends w !!! es_result e)))]);
            ("ts", JTime (es_ts e));
            ("kind", JStr "end");
            ("id", JStr (es_id e))]
  end.

Definition dump_history (w : World) (h : list Snapshot) : json :=
  JArr (map (dump_snapshot w) h).

Definition as_time (j : json) : option Z := match j with JTime t => Some t | _ => None end.
Definition as_num (j : json) : option Z := match j with JNum z => Some z | _ => None end.
Definition as_str (j : json) : option string := match j with JStr s => Some s | _ => None end.
Definition as_obj (j : json) : option (list (string * json)) :=
  match j with JObj kvs => Some kvs | _ => None end.

(** An optional member: absent or [null] gives [None]. *)
Definition optional {A} (k : string) (kvs : list (string * json))
    (f : json → option A) : option (option A) :=
  match assoc k kvs with
  | None | Some JNull => Some None
  | Some j => Some <$> f j
  end.

(** A validated snapshot, before its objects are made. *)
Inductive Parsed :=
  | ParsedNode (state : pyval) (nid : string) (fields : list (string * pyval))
      (start_ts duration : option Z) (status : SnapshotStatus) (id : option string)
  | ParsedEnd (state data : pyval) (ts : Z) (id : option string).

(** Modelled from the spec: validation of one snapshot, sections 4.B and 6:
    dispatch on [kind], then for a node on [node_id]; [status] defaults to
    [created]; [id] may be absent. *)
Definition parse_snapshot (ta : TypeAdapter) (j : json) : option Parsed :=
  kvs ← as_obj j;
  kind ← assoc "kind" kvs ≫= as_str;
  state ← validate (ta_state_type ta) (default JNull (assoc "state" kvs));
  id ← optional "id" kvs as_str;
  if bool_decide (kind = "node") then
    nkvs ← assoc "node" kvs ≫= as_obj;
    nid ← assoc "node_id" nkvs ≫= as_str;
    fts ← assoc nid (ta_nodes ta);
    fields ← validate_fields fts nkvs;
    start_ts ← optional "start_ts" kvs as_time;
    duration ← optional "duration" kvs as_num;
    status ← optional "status" kvs (λ j, as_str j ≫= status_of_name);
    Some (ParsedNode state nid fields start_ts duration (default created status) id)
  else if bool_decide (kind = "end") then
    rkvs ← assoc "result" kvs ≫= as_obj;
    data ← assoc "data" rkvs ≫= validate (ta_run_end_type ta);
    ts ← assoc "ts" kvs ≫= as_time;
    Some (ParsedEnd state data ts id)
  else None.

(** A state that is [None] needs no object. *)
Definition alloc_state (v : pyval) (w : World) : option loc * World :=
  match v with
  | PNone => (None, w)
  | _ => (Some (length (states w)), with_states (λ h, h ++ [v]) w)
  end.

(** Modelled from the spec: the objects of a validated snapshot; a snapshot
    without [id] gets one from the allocator (sections 4.F and 6). *)
Definition build_snapshot (p : Parsed) (w : World) : Snapshot * World :=
  match p with
  | ParsedNode state nid fields start_ts duration status id =>
      let '(st, w1) := alloc_state state w in
      let node := length (nodes w1) in
      let w2 := with_nodes (λ h, h ++ [MkNode nid fields None]) w1 in
      let '(i, w3) := match id with
                      | Some i => (i, w2)
                      | None => node_get_snapshot_id node w2
                      end in
      (RNode (length (node_snaps w3)),
       with_node_snaps (λ h, h ++ [MkNodeSnapshot st node start_ts duration status i]) w3)
  | ParsedEnd state data ts id =>
      let '(st, w1) := alloc_state state w in
      let res := length (ends w1) in
      let w2 := with_ends (λ h, h ++ [MkEnd data None]) w1 in
      let '(i, w3) := match id with
                      | Some i => (i, w2)
                      | None => end_get_snapshot_id res w2
                      end in
      (REnd (length (end_snaps w3)),
       with_end_snaps (λ h, h ++ [MkEndSnapshot st res ts i]) w3)
  end.

Definition decode_error {A} (msg : string) : Py World A :=
  raise (Exn DecodeError msg).

Definition load_snapshot (ta : TypeAdapter) (j : json) : Py World Snapshot :=
  λ w, match parse_snapshot ta j with
       | Some p => let '(s, w') := build_snapshot p w in (w', Ok s)
       | None => decode_error "invalid snapshot" w
       end.

Fixpoint load_snapshots (ta : TypeAdapter) (items : list json) : Py World (list Snapshot) :=
  match items with
  | [] => ret []
  | j :: items' =>
      (s <- load_snapshot ta j ;; ss <- load_snapshots ta items' ;; ret (s :: ss))%py
  end.

Definition validate_json (ta : TypeAdapter) (doc : json) : Py World (list Snapshot) :=
  match doc with
  | JArr items => load_snapshots ta items
  | _ => decode_error "history must be an array"
  end.

(** ** [FullStatePersistence] *)

Module FullStatePersistence.

Record t := Mk {
  deep_copy : bool;
  history : list Snapshot;
  _snapshots_type_adapter : option TypeAdapter }.

(** The dataclass defaults. *)
Definition new : t := Mk true [] None.

Definition St : Type := t * World.

Definition prep_state (self : t) (state : option loc) (w : World) : option loc * World :=
  if negb (deep_copy self) || bool_decide (state = None) then (state, w)
  else match state with
       | Some l => let '(l', w') := deepcopy l w in (Some l', w')
       | None => (state, w)
       end.

Definition append (s : Snapshot) (self : t) : t :=
  Mk (deep_copy self) (history self ++ [s]) (_snapshots_type_adapter self).

Definition snapshot_node (state : option loc) (next_node : loc) : Py St unit :=
  λ '(self, w),
    let '(st, w1) := prep_state self state w in
    let '(nd, w2) := if deep_copy self then node_deep_copy next_node w1
                     else (next_node, w1) in
    let '(s, w3) := new_NodeSnapshot st nd w2 in
    ((append (RNode s) self, w3), Ok tt).

Definition snapshot_end (state : option loc) (end_ : loc) : Py St unit :=
  λ '(self, w),
    let '(st, w1) := prep_state self state w in
    let '(r, w2) := if deep_copy self then end_deep_copy_data end_ w1
                    else (end_, w1) in
    let '(s, w3) := new_EndSnapshot st r w2 in
    ((append (REnd s) self, w3), Ok tt).

(** [next(s for s in self.history if s.id == snapshot_id)]. *)
Fixpoint find_snapshot (w : World) (snapshot_id : string) (h : list Snapshot)
    : option Snapshot :=
  match h with
  | [] => None
  | s :: h' => if bool_decide (snapshot_id_of w s = snapshot_id) then Some s
               else find_snapshot w snapshot_id h'
  end.

(** Assignment to an attribute of the local [snapshot]. *)
Definition set_snap (l : loc) (f : NodeSnapshot → NodeSnapshot) : Py St unit :=
  λ '(self, w), ((self, set_node_snap l f w), Ok tt).

Definition get_perf : Py St Z := λ '(self, w), ((self, w), Ok (perf_counter w)).
Definition get_utc : Py St Z := λ '(self, w), ((self, w), Ok (now_utc w)).

(** The context manager [record_run(snapshot_id)] around [body]. *)
Definition record_run {A} (snapshot_id : string) (body : Py St A) : Py St A :=
  λ '(self, w),
    match find_snapshot w snapshot_id (history self) with
    | None =>
        ((self, w), Raise (Exn LookupError ("No snapshot found with id=" +:+ snapshot_id)))
    | Some (REnd _) =>
        ((self, w), Raise (Exn AssertionError "Only NodeSnapshot can be recorded"))
    | Some (RNode l) =>
        (set_snap l (set_status running) ;;
         now <- get_utc ;;
         set_snap l (set_start_ts now) ;;
         start <- get_perf ;;
         λ st, match body st with
               | (st', Raise e) =>
                   if is_Exception e then
                     (stop <- get_perf ;;
                      set_snap l (set_duration (stop - start)) ;;
                      set_snap l (set_status error) ;;
                      raise e)%py st'
                   else (st', Raise e)
               | (st', Ok a) =>
                   (stop <- get_perf ;;
                    set_snap l (set_duration (stop - start)) ;;
                    set_snap l (set_status success) ;;
                    ret a)%py st'
               end)%py (self, w)
    end.

Definition restore : Py St (option Snapshot) :=
  λ '(self, w), ((self, w), Ok (last (history self))).

(** [indent] only lays the text out and is left out. *)
Definition dump_json : Py St json :=
  λ '(self, w),
    match _snapshots_type_adapter self with
    | None => ((self, w),
               Raise (Exn AssertionError "type adapter must be set to use `dump_json`"))
    | Some ta => ((self, w), Ok (dump_history w (history self)))
    end.

Definition load_json (json_data : json) : Py St unit :=
  λ '(self, w),
    match _snapshots_type_adapter self with
    | None => ((self, w),
               Raise (Exn AssertionError "type adapter must be set to use `load_json`"))
    | Some ta =>
        match validate_json ta json_data w with
        | (w', Ok h) => ((Mk (deep_copy self) h (Some ta), w'), Ok tt)
        | (w', Raise e) => ((self, w'), Raise e)
        end
    end.

(** [get_types] is a callback: it may act on the store and may raise. *)
Definition set_types (get_types : Py World (pytype * pytype)) : Py St unit :=
  λ '(self, w),
    match _snapshots_type_adapter self with
    | None =>
        match get_types w with
        | (w', Ok (state_t, run_end_t)) =>
            ((Mk (deep_copy self) (history self)
                 (Some (build_snapshot_list_type_adapter state_t run_end_t w')), w'),
             Ok tt)
        | (w', Raise e) => ((self, w'), Raise e)
        end
    | Some _ => ((self, w), Ok tt)
    end.

End FullStatePersistence.

(** ** The interface [StatePersistence] *)

Class StatePersistence (P : Type) := {
  snapshot_node : option loc → loc → Py (P * World) unit;
  snapshot_end : option loc → loc → Py (P * World) unit;
  record_run : ∀ A, string → Py (P * World) A → Py (P * World) A;
  restore : Py (P * World) (option Snapshot) }.
Arguments record_run {P _ A} _ _.

Global Instance Simple_persistence : StatePersistence SimpleStatePersistence.t := {
  snapshot_node := SimpleStatePersistence.snapshot_node;
  snapshot_end := SimpleStatePersistence.snapshot_end;
  record_run := @SimpleStatePersistence.record_run;
  restore := SimpleStatePersistence.restore }.

Global Instance Full_persistence : StatePersistence FullStatePersistence.t := {
  snapshot_node := FullStatePersistence.snapshot_node;
  snapshot_end := FullStatePersistence.snapshot_end;
  record_run := @FullStatePersistence.record_run;
  restore := FullStatePersistence.restore }.

(** ** Nodes and the run engine *)

(** What [node.run] hands back: a new node instance, an [End], or some other
    value (named by its type). *)
Inductive Step :=
  | StepNode (id : string) (fields : list (string * pyval))
  | StepEnd (data : pyval)
  | StepOther (typename : string).

(** The effect of one [run]: the contents it leaves in [ctx.state], the time
    it took, and what it returned or raised. *)
Record RunOutput := MkRunOutput {
  ro_state : pyval;
  ro_elapsed : N;
  ro_result : result Step }.

(** Modelled from the spec: a node type (section 4.A): its ID, the schema of
    its payload, the node types of its declared return, and [run], which acts
    through [ctx.state] only. *)
Record NodeDef := MkNodeDef {
  nd_id : string;
  nd_class : string;
  nd_fields : list (string * pytype);
  nd_next : list string;
  nd_run : list (string * pyval) → pyval → pyval → RunOutput }.

Record Graph := MkGraph { node_defs : list NodeDef }.

Record RunResult := MkRunResult {
  output : pyval;
  final_state : option loc }.

Inductive StepRef :=
  | SNode (l : loc)
  | SEnd (l : loc)
  | SOther (typename : string).

Fixpoint find_class (classes : list NodeDef) (id : string) : option NodeDef :=
  match classes with
  | [] => None
  | d :: classes' => if bool_decide (nd_id d = id) then Some d else find_class classes' id
  end.

(** [cursor.run(GraphRunContext(state, deps))], dispatched on the class of
    [cursor].  An instance of a class without [run] cannot exist; the model
    raises [NotImplementedError] for it. *)
Definition cursor_run (classes : list NodeDef) (cursor : loc) (state : option loc)
    (deps : pyval) : Py World StepRef :=
  λ w,
    let n := nodes w !!! cursor in
    match find_class classes (node_id n) with
    | None => (w, Raise (Exn NotImplementedError ""))
    | Some d =>
        let out := nd_run d (node_fields n) (state_value w state) deps in
        let w0 := match state with
                  | Some l => with_states (λ h, <[l := ro_state out]> h) w
                  | None => w
                  end in
        let w1 := advance_clocks (ro_elapsed out) w0 in
        match ro_result out with
        | Raise e => (w1, Raise e)
        | Ok (StepNode id fs) =>
            (with_nodes (λ h, h ++ [MkNode id fs None]) w1, Ok (SNode (length (nodes w1))))
        | Ok (StepEnd d) =>
            (with_ends (λ h, h ++ [MkEnd d None]) w1, Ok (SEnd (length (ends w1))))
        | Ok (StepOther ty) => (w1, Ok (SOther ty))
        end
    end.

Fixpoint join (sep : string) (l : list string) : string :=
  match l with
  | [] => ""
  | [x] => x
  | x :: l' => x +:+ sep +:+ join sep l'
  end.

(** [repr] of a value and of a node instance (a dataclass). *)
Fixpoint repr (v : pyval) : string :=
  match v with
  | PNone => "None"
  | PInt z => pretty z
  | PStr s => py_repr s
  | PObj cls fs =>
      cls +:+ "(" +:+ join ", " (map (λ kv, kv.1 +:+ "=" +:+ repr kv.2) fs) +:+ ")"
  end.

Definition node_repr (n : NodeObj) : string :=
  node_id n +:+ "("
  +:+ join ", " (map (λ kv, kv.1 +:+ "=" +:+ repr kv.2) (node_fields n)) +:+ ")".

Inductive Iter :=
  | Continue (cursor : loc)
  | Return (r : RunResult).

Section Engine.
Context {P : Type} `{StatePersistence P}.
Variable classes : list NodeDef.
Variable g : Graph.
Variable deps : pyval.

Definition lift {A} (m : Py World A) : Py (P * World) A :=
  λ '(p, w), let '(w', r) := m w in ((p, w'), r).

Definition cursor_snapshot_id (cursor : loc) : Py (P * World) string :=
  λ '(p, w), let '(i, w') := node_get_snapshot_id cursor w in ((p, w'), Ok i).

(** Modelled from the spec: what the loop does with the step that the node
    returned, section 4.E. *)
Definition route (state : option loc) (step : StepRef) : Py (P * World) Iter :=
  match step with
  | SEnd e =>
      (snapshot_end state e ;;
       λ '(p, w), ((p, w), Ok (Return (MkRunResult (end_data (ends w !!! e)) state))))%py
  | SNode n =>
      λ '(p, w),
        let nd := nodes w !!! n in
        if bool_decide (node_id nd ∈ map nd_id (node_defs g)) then
          ((p, w), Ok (Continue n))
        else
          ((p, w), Raise (Exn GraphRuntimeError
                            ("Node `" +:+ node_repr nd +:+ "` is not in the graph.")))
  | SOther ty =>
      raise (Exn GraphRuntimeError
               ("Invalid node return type: `" +:+ ty
                +:+ "`. Expected `BaseNode` or `End`."))
  end.

(** Modelled from the spec: one turn of the loop of [run], section 4.E.
    [cursor.snapshot_id] is read before the snapshot is recorded: with
    [deep_copy] on, [snapshot_node] hands a clone of the cursor to the
    snapshot (memory.py, lines 38 and 92), and the snapshot can have the ID
    that [record_run] is then called with only if the cursor has that ID
    when it is cloned. *)
Definition graph_iter (cursor : loc) (state : option loc) : Py (P * World) Iter :=
  (sid <- cursor_snapshot_id cursor ;;
   snapshot_node state cursor ;;
   step <- record_run sid (lift (cursor_run classes cursor state deps)) ;;
   route state step)%py.

(** Modelled from the spec: [Graph.run], section 4.E.  [None] when the fuel
    runs out before the run is over. *)
Fixpoint graph_run (fuel : nat) (cursor : loc) (state : option loc) (st : P * World)
    : option ((P * World) * result RunResult) :=
  match fuel with
  | 0 => None
  | S fuel' =>
      match graph_iter cursor state st with
      | (st', Ok (Continue c)) => graph_run fuel' c state st'
      | (st', Ok (Return r)) => Some (st', Ok r)
      | (st', Raise e) => Some (st', Raise e)
      end
  end.

End Engine.

(** ** The graph validator *)

Definition nl : string := String (ascii_of_nat 10) EmptyString.

Definition backtick (s : string) : string := "`" +:+ s +:+ "`".

(** Modelled from the spec: the referrers, separated by commas with a final
    [and] (section 4.D). *)
Definition comma_and (items : list string) : string :=
  match items with
  | [x] => x
  | _ => join ", " (removelast items) +:+ ", and " +:+ List.last items ""
  end.

(** The table of missing nodes, each with its referrers, in the order in which
    they are met. *)
Fixpoint add_referrer (edge referrer : string) (bad : list (string * list string))
    : list (string * list string) :=
  match bad with
  | [] => [(edge, [referrer])]
  | (k, v) :: bad' =>
      if bool_decide (k = edge) then (k, v ++ [referrer]) :: bad'
      else (k, v) :: add_referrer edge referrer bad'
  end.

Definition bad_edges (defs : list NodeDef) : list (string * list string) :=
  foldl (λ bad d,
           foldl (λ bad edge,
                    if bool_decide (edge ∈ map nd_id defs) then bad
                    else add_referrer edge (nd_id d) bad)
                 bad (nd_next d))
        [] defs.

Definition bad_edge_line (be : string * list string) : string :=
  backtick be.1 +:+ " is referenced by " +:+ comma_and (map backtick be.2).

(** Modelled from the spec: the closure check of section 4.D, with the
    messages of [test_one_bad_node], [test_two_bad_nodes] and
    [test_three_bad_nodes_separate]. *)
Definition validate_edges (defs : list NodeDef) : result unit :=
  match bad_edges defs with
  | [] => Ok tt
  | [be] => Raise (Exn GraphSetupError
                     (bad_edge_line be +:+ " but not included in the graph."))
  | bes => Raise (Exn GraphSetupError
                    ("Nodes are referenced in the graph but not included in the graph:"
                     +:+ nl +:+ join nl (map (λ be, " " +:+ bad_edge_line be) bes)))
  end.

(** The first node ID that occurs twice, with the two classes. *)
Fixpoint duplicate_id (seen defs : list NodeDef) : option (string * string * string) :=
  match defs with
  | [] => None
  | d :: defs' =>
      match find_class seen (nd_id d) with
      | Some d0 => Some (nd_id d, nd_class d0, nd_class d)
      | None => duplicate_id (seen ++ [d]) defs'
      end
  end.

(** Modelled from the spec: construction of a [Graph], section 4.D:
    uniqueness of the node IDs, then closure. *)
Definition Graph_new (defs : list NodeDef) : result Graph :=
  match duplicate_id [] defs with
  | Some (id, c1, c2) =>
      Raise (Exn GraphSetupError
               ("Node ID `" +:+ id +:+ "` is not unique — found on " +:+ c1 +:+ ", " +:+ c2))
  | None =>
      match validate_edges defs with
      | Raise e => Raise e
      | Ok _ => Ok (MkGraph defs)
      end
  end.

(** ** The programs of the test suite *)

Module TestPersistence.

(** [MyState(x: int, y: str)]. *)
Definition MyState_t : pytype := TData "MyState" [("x", TInt); ("y", TStr)].
Definition MyState (x : Z) (y : string) : pyval :=
  PObj "MyState" [("x", PInt x); ("y", PStr y)].

Definition state_x (s : pyval) : Z :=
  match s with PObj _ (("x", PInt x) :: _) => x | _ => 0%Z end.
Definition state_y (s : pyval) : string :=
  match s with PObj _ [_; ("y", PStr y)] => y | _ => "" end.

(** [Foo.run]: [ctx.state.x += 1; return Bar()]. *)
Definition Foo : NodeDef :=
  MkNodeDef "Foo" "Foo" [] ["Bar"]
    (λ _ s _, MkRunOutput (MyState (state_x s + 1) (state_y s)) 1
                          (Ok (StepNode "Bar" []))).

(** [Bar.run]: [ctx.state.y += 'y'; return End(ctx.state.x * 2)]. *)
Definition Bar : NodeDef :=
  MkNodeDef "Bar" "Bar" [] []
    (λ _ s _, MkRunOutput (MyState (state_x s) (state_y s +:+ "y")) 1
                          (Ok (StepEnd (PInt (state_x s * 2))))).

Definition graph : Graph := MkGraph [Foo; Bar].

(** [test_node_error]: [Foo] returns [Spam()], whose [run] raises
    [RuntimeError('test error')]. *)
Definition Foo' : NodeDef :=
  MkNodeDef "Foo" "Foo" [] ["Spam"]
    (λ _ s _, MkRunOutput s 1 (Ok (StepNode "Spam" []))).
Definition Spam : NodeDef :=
  MkNodeDef "Spam" "Spam" [] []
    (λ _ s _, MkRunOutput s 1 (Raise (Exn RuntimeError "test error"))).
Definition error_graph : Graph := MkGraph [Foo'; Spam].

(** The store in which a test starts: the node types of [g] registered, a
    start node and a start state allocated. *)
Definition start (g : Graph) (n : NodeObj) (s : list pyval) : World :=
  MkWorld (map (λ d, (nd_id d, nd_fields d)) (node_defs g)) s [n] [] [] [] 0 1000 0.


End TestPersistence.

Module TestGraph.

Definition not_implemented : list (string * pyval) → pyval → pyval → RunOutput :=
  λ _ s _, MkRunOutput s 0 (Raise (Exn NotImplementedError "")).

Definition node (id : string) (next : list string) : NodeDef :=
  MkNodeDef id id [] next not_implemented.

(** [test_one_bad_node]: [Float2String] returns [String2Length]. *)
Definition one_bad_node : list NodeDef := [node "Float2String" ["String2Length"]].

(** [test_two_bad_nodes]: [Foo] returns [Union[Bar, Spam]]. *)
Definition two_bad_nodes : list NodeDef := [node "Foo" ["Bar"; "Spam"]].

(** [test_three_bad_nodes_separate]: [Foo], [Bar] and [Spam] return [Eggs]. *)
Definition three_bad_nodes_separate : list NodeDef :=
  [node "Foo" ["Eggs"]; node "Bar" ["Eggs"]; node "Spam" ["Eggs"]].

End TestGraph.

(** * Properties *)

(** ** Lookup failures of [record_run] *)

Lemma find_snapshot_None w id h :
  FullStatePersistence.find_snapshot w id h = None ↔
  Forall (λ s, snapshot_id_of w s ≠ id) h.
Proof.
  induction h as [|s h IH]; simpl.
  - split; [constructor | done].
  - case_bool_decide as Hid.
    + split; [done | intros Hall; by inversion Hall].
    + rewrite IH. split; [by constructor | intros Hall; by inversion Hall].
Qed.

(** C2, the claim as stated fails: on a history whose snapshot [end:1] is an
    end snapshot, [FullStatePersistence.record_run] raises [AssertionError],
    not [TypeError]; and [SimpleStatePersistence.record_run] on a backend
    without a snapshot raises [AssertionError], not [LookupError]. *)
Lemma record_run_raises_AssertionError :
  let w := with_end_snaps (λ _, [MkEndSnapshot None 0 0 "end:1"])
             (with_ends (λ _, [MkEnd PNone (Some "end:1")]) empty_world) in
  let full := FullStatePersistence.Mk true [REnd 0] None in
  let r1 := (FullStatePersistence.record_run "end:1" (ret tt) (full, w)).2 in
  let r2 := (SimpleStatePersistence.record_run "Foo:1" (ret tt)
               (SimpleStatePersistence.new, empty_world)).2 in
  r1 = Raise (Exn AssertionError "Only NodeSnapshot can be recorded")
  ∧ (∀ msg, r1 ≠ Raise (Exn TypeError msg))
  ∧ r2 = Raise (Exn AssertionError "No snapshot to record")
  ∧ (∀ msg, r2 ≠ Raise (Exn LookupError msg)).
Proof. repeat split; done. Qed.

(** C2, as the code has it: [FullStatePersistence.record_run] raises
    [LookupError] when no snapshot of the history has the requested ID, and
    [AssertionError] when the first snapshot with that ID is an end snapshot;
    [SimpleStatePersistence.record_run] raises [AssertionError] when there is
    no snapshot, when the snapshot is an end snapshot, and when its ID is not
    the requested one.  In each case the body does not run and the store is
    left as it was. *)
Theorem record_run_lookup_failures :
  (∀ A (body : Py _ A) self w id,
     Forall (λ s, snapshot_id_of w s ≠ id) (FullStatePersistence.history self) →
     FullStatePersistence.record_run id body (self, w)
     = ((self, w), Raise (Exn LookupError ("No snapshot found with id=" +:+ id))))
  ∧ (∀ A (body : Py _ A) self w id l,
       FullStatePersistence.find_snapshot w id (FullStatePersistence.history self)
       = Some (REnd l) →
       FullStatePersistence.record_run id body (self, w)
       = ((self, w), Raise (Exn AssertionError "Only NodeSnapshot can be recorded")))
  ∧ (∀ A (body : Py _ A) self w id,
       SimpleStatePersistence.last_snapshot self = None →
       SimpleStatePersistence.record_run id body (self, w)
       = ((self, w), Raise (Exn AssertionError "No snapshot to record")))
  ∧ (∀ A (body : Py _ A) self w id l,
       SimpleStatePersistence.last_snapshot self = Some (REnd l) →
       SimpleStatePersistence.record_run id body (self, w)
       = ((self, w), Raise (Exn AssertionError "Only NodeSnapshot can be recorded")))
  ∧ (∀ A (body : Py _ A) self w id l,
       SimpleStatePersistence.last_snapshot self = Some (RNode l) →
       id ≠ ns_id (node_snaps w !!! l) →
       ∃ msg, SimpleStatePersistence.record_run id body (self, w)
              = ((self, w), Raise (Exn AssertionError msg))).
Proof.
  repeat split.
  - intros A body self w id Hall. apply find_snapshot_None in Hall.
    unfold FullStatePersistence.record_run. by rewrite Hall.
  - intros A body self w id l Hf.
    unfold FullStatePersistence.record_run. by rewrite Hf.
  - intros A body self w id Hl.
    unfold SimpleStatePersistence.record_run. by rewrite Hl.
  - intros A body self w id l Hl.
    unfold SimpleStatePersistence.record_run. by rewrite Hl.
  - intros A body self w id l Hl Hid.
    unfold SimpleStatePersistence.record_run. rewrite Hl.
    rewrite bool_decide_eq_false_2 by done. simpl. eauto.
Qed.

Lemma record_run_lookup_failures_witness :
  FullStatePersistence.record_run "Foo:1" (ret tt) (FullStatePersistence.new, empty_world)
  = ((FullStatePersistence.new, empty_world),
     Raise (Exn LookupError "No snapshot found with id=Foo:1")).
Proof.
  apply (proj1 record_run_lookup_failures unit (ret tt) FullStatePersistence.new
           empty_world "Foo:1").
  simpl. constructor.
Defined.

(** ** [set_types] *)

(** C10: once a call of [set_types] has succeeded the codec is set, and every
    later call, whatever its callback would do or return, leaves the
    persistence and the store as they are: the callback is not invoked and
    the codec is kept.  A call on a persistence whose codec is set already
    changes nothing either. *)
Theorem set_types_only_first_call
    (self : FullStatePersistence.t) (w : World)
    (get_types get_types' : Py World (pytype * pytype)) (st1 : FullStatePersistence.St) :
  FullStatePersistence.set_types get_types (self, w) = (st1, Ok tt) →
  is_Some (FullStatePersistence._snapshots_type_adapter st1.1)
  ∧ FullStatePersistence.set_types get_types' st1 = (st1, Ok tt)
  ∧ (is_Some (FullStatePersistence._snapshots_type_adapter self) → st1 = (self, w)).
Proof.
  unfold FullStatePersistence.set_types.
  destruct (FullStatePersistence._snapshots_type_adapter self) as [ta|] eqn:Hta.
  - intros [= <-]. simpl. rewrite Hta. eauto.
  - destruct (get_types w) as [w' [[state_t run_end_t]|e]]; intros [= <-]; simpl.
    split; [eauto | split; [done | by intros []]].
Qed.

(** A callback that would leave a mark in the store and supply other types. *)
Definition other_types : Py World (pytype * pytype) :=
  λ w, (advance_clocks 1 w, Ok (TNone, TNone)).

Lemma set_types_only_first_call_witness :
  let st1 := (FullStatePersistence.Mk true []
                (Some (MkTypeAdapter TestPersistence.MyState_t TInt [])), empty_world) in
  FullStatePersistence.set_types other_types st1 = (st1, Ok tt).
Proof.
  intros st1.
  apply (set_types_only_first_call FullStatePersistence.new empty_world
           (ret (TestPersistence.MyState_t, TInt)) other_types st1).
  reflexivity.
Defined.

(** ** The recording region *)

(** The store on entry of the region for the snapshot [l], and on an exit
    that records the terminal status [s] and the duration [d]. *)
Definition entered (l : loc) (w : World) : World :=
  set_node_snap l (set_start_ts (now_utc w)) (set_node_snap l (set_status running) w).

Definition finished (l : loc) (s : SnapshotStatus) (d : Z) (w : World) : World :=
  set_node_snap l (set_status s) (set_node_snap l (set_duration d) w).

Lemma entered_lookup l w n :
  node_snaps w !! l = Some n →
  node_snaps (entered l w) !! l
  = Some (MkNodeSnapshot (ns_state n) (ns_node n) (Some (now_utc w)) (ns_duration n)
                         running (ns_id n)).
Proof.
  intros Hn. unfold entered, set_node_snap, with_node_snaps. cbn [node_snaps].
  rewrite !list_lookup_alter_eq, Hn. done.
Qed.

Lemma finished_lookup l s d w n :
  node_snaps w !! l = Some n →
  node_snaps (finished l s d w) !! l
  = Some (MkNodeSnapshot (ns_state n) (ns_node n) (ns_start_ts n) (Some d) s (ns_id n)).
Proof.
  intros Hn. unfold finished, set_node_snap, with_node_snaps. cbn [node_snaps].
  rewrite !list_lookup_alter_eq, Hn. done.
Qed.

Lemma finished_lookup_ne l s d w k :
  k ≠ l → node_snaps (finished l s d w) !! k = node_snaps w !! k.
Proof.
  intros Hk. unfold finished, set_node_snap, with_node_snaps. cbn [node_snaps].
  by rewrite !list_lookup_alter_ne.
Qed.

(** What [FullStatePersistence.record_run] computes once the snapshot is
    found, by the way the body ends. *)
Lemma full_record_run_unfold A (body : Py _ A) self w id l :
  FullStatePersistence.find_snapshot w id (FullStatePersistence.history self)
  = Some (RNode l) →
  FullStatePersistence.record_run id body (self, w)
  = match body (self, entered l w) with
    | ((self', w'), Ok a) =>
        ((self', finished l success (perf_clock w' - perf_clock w) w'), Ok a)
    | ((self', w'), Raise e) =>
        if is_Exception e
        then ((self', finished l error (perf_clock w' - perf_clock w) w'), Raise e)
        else ((self', w'), Raise e)
    end.
Proof.
  intros Hf. unfold FullStatePersistence.record_run. rewrite Hf.
  unfold bind, FullStatePersistence.set_snap, FullStatePersistence.get_utc,
    FullStatePersistence.get_perf, ret, raise.
  change (set_node_snap l (set_start_ts (now_utc (set_node_snap l (set_status running) w)))
            (set_node_snap l (set_status running) w))
    with (entered l w).
  change (perf_counter (entered l w)) with (perf_clock w).
  destruct (body (self, entered l w)) as [[self' w'] [a|e]]; [done |].
  destruct (is_Exception e); done.
Qed.

(** The same for [SimpleStatePersistence.record_run], when the body leaves
    [last_snapshot] in place. *)
Lemma simple_record_run_unfold A (body : Py _ A) self w id l :
  SimpleStatePersistence.last_snapshot self = Some (RNode l) →
  id = ns_id (node_snaps w !!! l) →
  SimpleStatePersistence.record_run id body (self, w)
  = match body (self, entered l w) with
    | ((self', w'), Ok a) =>
        match SimpleStatePersistence.last_snapshot self' with
        | Some (RNode l') =>
            ((self', finished l' success (perf_clock w' - perf_clock w) w'), Ok a)
        | Some (REnd _) => ((self', w'), Ok a)
        | None => ((self', w'),
                   Raise (Exn AttributeError "'NoneType' object has no attribute 'duration'"))
        end
    | ((self', w'), Raise e) =>
        if is_Exception e
        then match SimpleStatePersistence.last_snapshot self' with
             | Some (RNode l') =>
                 ((self', finished l' error (perf_clock w' - perf_clock w) w'), Raise e)
             | Some (REnd _) => ((self', w'), Raise e)
             | None => ((self', w'),
                        Raise (Exn AttributeError
                                 "'NoneType' object has no attribute 'duration'"))
             end
        else ((self', w'), Raise e)
    end.
Proof.
  intros Hl Hid. unfold SimpleStatePersistence.record_run. rewrite Hl.
  rewrite bool_decide_eq_true_2 by done.
  unfold bind, SimpleStatePersistence.set_last, SimpleStatePersistence.get_utc,
    SimpleStatePersistence.get_perf, ret, raise.
  cbn [negb]. repeat (rewrite Hl; cbn beta iota).
  change (set_node_snap l (set_start_ts (now_utc (set_node_snap l (set_status running) w)))
            (set_node_snap l (set_status running) w))
    with (entered l w).
  change (perf_counter (entered l w)) with (perf_clock w).
  destruct (body (self, entered l w)) as [[self' w'] [a|e]].
  - destruct (SimpleStatePersistence.last_snapshot self') as [[l'|l']|] eqn:Hl';
      cbn beta iota; repeat (rewrite Hl'; cbn beta iota); reflexivity.
  - destruct (is_Exception e); [|done].
    destruct (SimpleStatePersistence.last_snapshot self') as [[l'|l']|] eqn:Hl';
      cbn beta iota; repeat (rewrite Hl'; cbn beta iota); reflexivity.
Qed.

(** The result of the region when the body ended in the store [w'] with [r]:
    the updates on normal exit and on exit by an instance of [Exception];
    any other exception passes through. *)
Definition region_outcome {P A} (run : (P * World) * result A)
    (self' : P) (w w' : World) (l : loc) (r : result A) : Prop :=
  match r with
  | Ok a => run = ((self', finished l success (perf_clock w' - perf_clock w) w'), Ok a)
  | Raise e =>
      if is_Exception e
      then run = ((self', finished l error (perf_clock w' - perf_clock w) w'), Raise e)
      else run = ((self', w'), Raise e)
  end.

(** A body that takes [d] ticks and then returns, or raises [e]. *)
Definition body_returns {St'} (d : N) : Py (St' * World) unit :=
  λ '(p, w), ((p, advance_clocks d w), Ok tt).
Definition body_raises {St'} (d : N) (e : exn) : Py (St' * World) unit :=
  λ '(p, w), ((p, advance_clocks d w), Raise e).

(** A store with the one node snapshot [Foo:1], just created. *)
Definition one_snapshot : World :=
  with_node_snaps (λ _, [MkNodeSnapshot None 0 None None created "Foo:1"])
    (with_nodes (λ _, [MkNode "Foo" [] (Some "Foo:1")])
       (MkWorld [] [] [] [] [] [] 1 1000 0)).

(** C1, the claim as stated fails: when the body is left by a
    [KeyboardInterrupt] the exception propagates and the snapshot keeps the
    status [running] and has no duration. *)
Lemma record_run_exit_without_updates :
  let full := FullStatePersistence.Mk true [RNode 0] None in
  let run := FullStatePersistence.record_run "Foo:1"
               (body_raises 5 (Exn KeyboardInterrupt "")) (full, one_snapshot) in
  run.2 = Raise (Exn KeyboardInterrupt "")
  ∧ node_snaps run.1.2 !! 0
    = Some (MkNodeSnapshot None 0 (Some 1000%Z) None running "Foo:1")
  ∧ ¬ (∃ n, node_snaps run.1.2 !! 0 = Some n
            ∧ is_Some (ns_duration n) ∧ ns_status n = error).
Proof.
  repeat split.
  intros (n & Hn & [d Hd] & _). vm_compute in Hn. by injection Hn as <-.
Qed.

(** C1, as the code has it.  For [FullStatePersistence], once the snapshot
    [l] with the requested ID is found, and for [SimpleStatePersistence], when
    [last_snapshot] is the node snapshot [l] with the requested ID: the body
    runs in a store in which [l] has the status [running] and
    [start_ts = now_utc()]; when the body returns, the duration is set to the
    time elapsed on [perf_counter] and the status to [success]; when the body
    raises an instance of [Exception], the duration is set likewise, the
    status is [error] and the same exception is raised again; an exception
    that is not an instance of [Exception] is passed on with the store as the
    body left it.  In [FullStatePersistence] the updates on exit go to [l];
    in [SimpleStatePersistence] they go to the node snapshot [l'] that
    [last_snapshot] refers to when the body is over, which need not be [l],
    and every other snapshot, [l] too when it is not [l'], is left as the
    body left it. *)
Theorem record_run_region :
  (∀ A (body : Py _ A) self w id l n self' w' r n',
     FullStatePersistence.find_snapshot w id (FullStatePersistence.history self)
     = Some (RNode l) →
     node_snaps w !! l = Some n →
     body (self, entered l w) = ((self', w'), r) →
     node_snaps w' !! l = Some n' →
     node_snaps (entered l w) !! l
     = Some (MkNodeSnapshot (ns_state n) (ns_node n) (Some (now_utc w)) (ns_duration n)
                            running (ns_id n))
     ∧ region_outcome (FullStatePersistence.record_run id body (self, w)) self' w w' l r
     ∧ ∀ s d, node_snaps (finished l s d w') !! l
              = Some (MkNodeSnapshot (ns_state n') (ns_node n') (ns_start_ts n')
                                     (Some d) s (ns_id n')))
  ∧ (∀ A (body : Py _ A) self w id l n self' w' r l' n',
       SimpleStatePersistence.last_snapshot self = Some (RNode l) →
       node_snaps w !! l = Some n →
       id = ns_id n →
       body (self, entered l w) = ((self', w'), r) →
       SimpleStatePersistence.last_snapshot self' = Some (RNode l') →
       node_snaps w' !! l' = Some n' →
       node_snaps (entered l w) !! l
       = Some (MkNodeSnapshot (ns_state n) (ns_node n) (Some (now_utc w)) (ns_duration n)
                              running (ns_id n))
       ∧ region_outcome (SimpleStatePersistence.record_run id body (self, w)) self' w w' l' r
       ∧ (∀ s d, node_snaps (finished l' s d w') !! l'
                 = Some (MkNodeSnapshot (ns_state n') (ns_node n') (ns_start_ts n')
                                        (Some d) s (ns_id n')))
       ∧ (∀ s d k, k ≠ l' → node_snaps (finished l' s d w') !! k = node_snaps w' !! k)).
Proof.
  split.
  - intros A body self w id l n self' w' r n' Hf Hn Hb Hn'.
    split; [by apply entered_lookup |].
    split; [| by intros; apply finished_lookup].
    rewrite (full_record_run_unfold _ _ _ _ _ _ Hf), Hb.
    destruct r as [a|e]; simpl; [done |]. by destruct (is_Exception e).
  - intros A body self w id l n self' w' r l' n' Hl Hn -> Hb Hl' Hn'.
    split; [by apply entered_lookup |].
    split; [| split; [by intros; apply finished_lookup
                     | by intros; apply finished_lookup_ne]].
    rewrite (simple_record_run_unfold _ body self w _ l Hl), Hb, Hl'.
    + destruct r as [a|e]; simpl; [done |]. by destruct (is_Exception e).
    + by rewrite (list_lookup_total_correct _ _ _ Hn).
Qed.

Lemma record_run_region_witness :
  let full := FullStatePersistence.Mk true [RNode 0] None in
  FullStatePersistence.record_run "Foo:1" (body_returns 5) (full, one_snapshot)
  = ((full, finished 0 success 5 (advance_clocks 5 (entered 0 one_snapshot))), Ok tt).
Proof.
  intros full.
  apply (proj1 (proj2 (proj1 record_run_region unit (body_returns 5) full one_snapshot
           "Foo:1" 0 (MkNodeSnapshot None 0 None None created "Foo:1")
           full (advance_clocks 5 (entered 0 one_snapshot)) (Ok tt)
           (MkNodeSnapshot None 0 (Some 1000%Z) None running "Foo:1")
           eq_refl eq_refl eq_refl eq_refl))).
Defined.

(** C8, the claim as stated fails: when the body is cancelled the region,
    on either backend, records no duration and the status stays [running]. *)
Lemma cancellation_is_not_recorded :
  let body A : Py (A * World) unit := body_raises 5 (Exn CancelledError "") in
  let full := FullStatePersistence.Mk true [RNode 0] None in
  let simple := SimpleStatePersistence.Mk false (Some (RNode 0)) in
  let run1 := FullStatePersistence.record_run "Foo:1" (body _) (full, one_snapshot) in
  let run2 := SimpleStatePersistence.record_run "Foo:1" (body _) (simple, one_snapshot) in
  let left := Some (MkNodeSnapshot None 0 (Some 1000%Z) None running "Foo:1") in
  run1.2 = Raise (Exn CancelledError "") ∧ node_snaps run1.1.2 !! 0 = left
  ∧ run2.2 = Raise (Exn CancelledError "") ∧ node_snaps run2.1.2 !! 0 = left
  ∧ ¬ (∃ n, node_snaps run1.1.2 !! 0 = Some n
            ∧ is_Some (ns_duration n) ∧ ns_status n = error).
Proof.
  repeat split.
  intros (n & Hn & [d Hd] & _). vm_compute in Hn. by injection Hn as <-.
Qed.

(** C8, as the code has it: [asyncio.CancelledError] is not an instance of
    [Exception], so when the body is cancelled the region, on either backend,
    passes the cancellation on with the store exactly as the body left it: no
    duration is recorded, and a snapshot the body did not touch keeps the
    status [running]. *)
Theorem record_run_cancelled :
  (∀ A (body : Py _ A) self w id l n st' msg,
     FullStatePersistence.find_snapshot w id (FullStatePersistence.history self)
     = Some (RNode l) →
     node_snaps w !! l = Some n →
     body (self, entered l w) = (st', Raise (Exn CancelledError msg)) →
     FullStatePersistence.record_run id body (self, w)
     = (st', Raise (Exn CancelledError msg))
     ∧ (node_snaps st'.2 !! l = node_snaps (entered l w) !! l →
        ∃ n', node_snaps st'.2 !! l = Some n'
              ∧ ns_status n' = running ∧ ns_duration n' = ns_duration n))
  ∧ (∀ A (body : Py _ A) self w id l n st' msg,
       SimpleStatePersistence.last_snapshot self = Some (RNode l) →
       node_snaps w !! l = Some n →
       id = ns_id n →
       body (self, entered l w) = (st', Raise (Exn CancelledError msg)) →
       SimpleStatePersistence.record_run id body (self, w)
       = (st', Raise (Exn CancelledError msg))
       ∧ (node_snaps st'.2 !! l = node_snaps (entered l w) !! l →
          ∃ n', node_snaps st'.2 !! l = Some n'
                ∧ ns_status n' = running ∧ ns_duration n' = ns_duration n)).
Proof.
  split.
  - intros A body self w id l n [self' w'] msg Hf Hn Hb. split.
    + by rewrite (full_record_run_unfold _ _ _ _ _ _ Hf), Hb.
    + cbn [snd]. intros ->. rewrite (entered_lookup _ _ _ Hn). eauto.
  - intros A body self w id l n [self' w'] msg Hl Hn -> Hb. split.
    + rewrite (simple_record_run_unfold _ body self w _ l Hl), Hb; [done |].
      by rewrite (list_lookup_total_correct _ _ _ Hn).
    + cbn [snd]. intros ->. rewrite (entered_lookup _ _ _ Hn). eauto.
Qed.

Lemma record_run_cancelled_witness :
  let simple := SimpleStatePersistence.Mk false (Some (RNode 0)) in
  SimpleStatePersistence.record_run "Foo:1" (body_raises 5 (Exn CancelledError ""))
    (simple, one_snapshot)
  = ((simple, advance_clocks 5 (entered 0 one_snapshot)), Raise (Exn CancelledError "")).
Proof.
  intros simple.
  apply (proj1 (proj2 record_run_cancelled unit (body_raises 5 (Exn CancelledError ""))
           simple one_snapshot "Foo:1" 0 (MkNodeSnapshot None 0 None None created "Foo:1")
           (simple, advance_clocks 5 (entered 0 one_snapshot)) ""
           eq_refl eq_refl eq_refl eq_refl)).
Defined.

(** ** Capturing a snapshot *)

(** What [snapshot_node] and [snapshot_end] of both backends do before they
    store the new snapshot. *)
Definition capture_state (deep : bool) (state : option loc) (w : World) : option loc * World :=
  if negb deep || bool_decide (state = None) then (state, w)
  else match state with
       | Some l => let '(l', w') := deepcopy l w in (Some l', w')
       | None => (state, w)
       end.

Definition capture_node (deep : bool) (state : option loc) (next_node : loc) (w : World)
    : loc * World :=
  let '(st, w1) := capture_state deep state w in
  let '(nd, w2) := if deep then node_deep_copy next_node w1 else (next_node, w1) in
  new_NodeSnapshot st nd w2.

Definition capture_end (deep : bool) (state : option loc) (end_ : loc) (w : World)
    : loc * World :=
  let '(st, w1) := capture_state deep state w in
  let '(r, w2) := if deep then end_deep_copy_data end_ w1 else (end_, w1) in
  new_EndSnapshot st r w2.

Lemma full_snapshot_node_capture self w state node :
  FullStatePersistence.snapshot_node state node (self, w)
  = let '(s, w') := capture_node (FullStatePersistence.deep_copy self) state node w in
    ((FullStatePersistence.append (RNode s) self, w'), Ok tt).
Proof.
  unfold FullStatePersistence.snapshot_node, capture_node.
  change (FullStatePersistence.prep_state self state w)
    with (capture_state (FullStatePersistence.deep_copy self) state w).
  destruct (capture_state _ state w) as [st w1].
  destruct (if FullStatePersistence.deep_copy self then _ else _) as [nd w2].
  by destruct (new_NodeSnapshot st nd w2).
Qed.

Lemma full_snapshot_end_capture self w state e :
  FullStatePersistence.snapshot_end state e (self, w)
  = let '(s, w') := capture_end (FullStatePersistence.deep_copy self) state e w in
    ((FullStatePersistence.append (REnd s) self, w'), Ok tt).
Proof.
  unfold FullStatePersistence.snapshot_end, capture_end.
  change (FullStatePersistence.prep_state self state w)
    with (capture_state (FullStatePersistence.deep_copy self) state w).
  destruct (capture_state _ state w) as [st w1].
  destruct (if FullStatePersistence.deep_copy self then _ else _) as [r w2].
  by destruct (new_EndSnapshot st r w2).
Qed.

Lemma simple_snapshot_node_capture self w state node :
  SimpleStatePersistence.snapshot_node state node (self, w)
  = let '(s, w') := capture_node (SimpleStatePersistence.deep_copy self) state node w in
    ((SimpleStatePersistence.Mk (SimpleStatePersistence.deep_copy self) (Some (RNode s)), w'),
     Ok tt).
Proof.
  unfold SimpleStatePersistence.snapshot_node, capture_node.
  change (SimpleStatePersistence.prep_state self state w)
    with (capture_state (SimpleStatePersistence.deep_copy self) state w).
  destruct (capture_state _ state w) as [st w1].
  destruct (if SimpleStatePersistence.deep_copy self then _ else _) as [nd w2].
  by destruct (new_NodeSnapshot st nd w2).
Qed.

Lemma simple_snapshot_end_capture self w state e :
  SimpleStatePersistence.snapshot_end state e (self, w)
  = let '(s, w') := capture_end (SimpleStatePersistence.deep_copy self) state e w in
    ((SimpleStatePersistence.Mk (SimpleStatePersistence.deep_copy self) (Some (REnd s)), w'),
     Ok tt).
Proof.
  unfold SimpleStatePersistence.snapshot_end, capture_end.
  change (SimpleStatePersistence.prep_state self state w)
    with (capture_state (SimpleStatePersistence.deep_copy self) state w).
  destruct (capture_state _ state w) as [st w1].
  destruct (if SimpleStatePersistence.deep_copy self then _ else _) as [r w2].
  by destruct (new_EndSnapshot st r w2).
Qed.

(** A node or an [End] is a copy of another when it has the same contents. *)
Definition same_node (a b : NodeObj) : Prop :=
  node_id a = node_id b ∧ node_fields a = node_fields b.
Definition same_end (a b : EndObj) : Prop := end_data a = end_data b.

(** The ID under which a node or an [End] is recorded: the one it carries,
    or else the next one of the allocator. *)
Definition recorded_id (name : string) (carried : option string) (w : World) : string :=
  default (name +:+ ":" +:+ pretty (S (id_counter w))) carried.

Definition counter_after (carried : option string) (w : World) : nat :=
  match carried with Some _ => id_counter w | None => S (id_counter w) end.

Lemma alter_as_insert {A} `{!Inhabited A} (f : A → A) (l : nat) (h : list A) :
  alter f l h = <[l := f (h !!! l)]> h.
Proof.
  revert l. induction h as [|x h IH]; intros [|l]; simpl; try done.
  f_equal. apply IH.
Qed.

Lemma lookup_total_snoc {A} `{!Inhabited A} (h : list A) (x : A) :
  (h ++ [x]) !!! length h = x.
Proof. by rewrite lookup_total_app_r, Nat.sub_diag. Qed.

Lemma lookup_total_snoc_lt {A} `{!Inhabited A} (h : list A) (x : A) l :
  l < length h → (h ++ [x]) !!! l = h !!! l.
Proof. intros. by rewrite lookup_total_app_l. Qed.

(** The store after node [l] got the snapshot ID [i], the counter being [c]. *)
Definition with_node_id (l : loc) (i : string) (c : nat) (w : World) : World :=
  with_id_counter c
    (with_nodes (λ h, <[l := MkNode (node_id (h !!! l)) (node_fields (h !!! l)) (Some i)]> h) w).

Definition with_end_id (l : loc) (i : string) (c : nat) (w : World) : World :=
  with_id_counter c
    (with_ends (λ h, <[l := MkEnd (end_data (h !!! l)) (Some i)]> h) w).

Lemma node_get_snapshot_id_eq l w :
  l < length (nodes w) →
  let n0 := nodes w !!! l in
  let i := recorded_id (node_id n0) (node_snapshot_id n0) w in
  node_get_snapshot_id l w = (i, with_node_id l i (counter_after (node_snapshot_id n0) w) w).
Proof.
  intros Hl n0 i. subst n0 i. unfold node_get_snapshot_id, recorded_id, counter_after.
  destruct (node_snapshot_id (nodes w !!! l)) as [i|] eqn:Hi; cbn [default].
  - f_equal. unfold with_node_id, with_nodes, with_id_counter. destruct w; cbn in *.
    f_equal. symmetry. apply list_insert_id.
    rewrite list_lookup_lookup_total_lt by done. f_equal.
    destruct (nodes0 !!! l); cbn in *. by subst.
  - unfold generate_snapshot_id, with_node_id, with_nodes, with_id_counter. cbn.
    by rewrite alter_as_insert.
Qed.

Lemma end_get_snapshot_id_eq l w :
  l < length (ends w) →
  let e0 := ends w !!! l in
  let i := recorded_id "end" (end_snapshot_id e0) w in
  end_get_snapshot_id l w = (i, with_end_id l i (counter_after (end_snapshot_id e0) w) w).
Proof.
  intros Hl e0 i. subst e0 i. unfold end_get_snapshot_id, recorded_id, counter_after.
  destruct (end_snapshot_id (ends w !!! l)) as [i|] eqn:Hi; cbn [default].
  - f_equal. unfold with_end_id, with_ends, with_id_counter. destruct w; cbn in *.
    f_equal. symmetry. apply list_insert_id.
    rewrite list_lookup_lookup_total_lt by done. f_equal.
    destruct (ends0 !!! l); cbn in *. by subst.
  - unfold generate_snapshot_id, with_end_id, with_ends, with_id_counter. cbn.
    by rewrite alter_as_insert.
Qed.

(** [capture_state]: the reference it returns and the object it adds. *)
Definition captured_state (deep : bool) (state : option loc) (w : World) : option loc :=
  match state with
  | Some l => if deep then Some (length (states w)) else Some l
  | None => None
  end.

Definition captured_copy (deep : bool) (state : option loc) (w : World) : list pyval :=
  match state with
  | Some l => if deep then [states w !!! l] else []
  | None => []
  end.

Lemma capture_state_eq deep state w :
  capture_state deep state w
  = (captured_state deep state w, with_states (λ h, h ++ captured_copy deep state w) w).
Proof.
  assert (w = with_states (λ h, h ++ []) w) as Hw.
  { destruct w; unfold with_states; cbn. by rewrite app_nil_r. }
  unfold capture_state, captured_state, captured_copy, deepcopy.
  destruct deep, state as [l|]; cbn; rewrite ?bool_decide_eq_false_2 by done;
    cbn; by rewrite <- ?Hw.
Qed.

(** [capture_node] in closed form. *)
Lemma capture_node_eq deep state node w :
  node < length (nodes w) →
  let n0 := nodes w !!! node in
  let i := recorded_id (node_id n0) (node_snapshot_id n0) w in
  let c := counter_after (node_snapshot_id n0) w in
  let w0 := with_states (λ h, h ++ captured_copy deep state w) w in
  capture_node deep state node w
  = if deep then
      (length (node_snaps w),
       with_node_snaps
         (λ h, h ++ [MkNodeSnapshot (captured_state deep state w) (length (nodes w))
                       None None created i])
         (with_id_counter c
            (with_nodes (λ h, h ++ [MkNode (node_id n0) (node_fields n0) (Some i)]) w0)))
    else
      (length (node_snaps w),
       with_node_snaps
         (λ h, h ++ [MkNodeSnapshot (captured_state deep state w) node None None created i])
         (with_node_id node i c w0)).
Proof.
  intros Hnode n0 i c w0. subst n0 i c w0.
  unfold capture_node. rewrite capture_state_eq.
  set (w0 := with_states _ w).
  assert (nodes w0 = nodes w) as Hn0 by done.
  assert (id_counter w0 = id_counter w) as Hc0 by done.
  destruct deep.
  - unfold node_deep_copy, new_NodeSnapshot. rewrite Hn0.
    rewrite node_get_snapshot_id_eq by (cbn; rewrite length_app; cbn; lia).
    cbn [nodes with_nodes]. rewrite Hn0, lookup_total_snoc.
    unfold recorded_id, counter_after, with_node_id, with_nodes, with_id_counter,
      with_node_snaps.
    cbn. rewrite lookup_total_snoc.
    rewrite insert_app_r_alt, Nat.sub_diag by done. done.
  - unfold new_NodeSnapshot. rewrite node_get_snapshot_id_eq by by rewrite Hn0.
    unfold recorded_id, counter_after. rewrite Hn0, Hc0. done.
Qed.

Lemma capture_end_eq deep state e w :
  e < length (ends w) →
  let e0 := ends w !!! e in
  let i := recorded_id "end" (end_snapshot_id e0) w in
  let c := counter_after (end_snapshot_id e0) w in
  let w0 := with_states (λ h, h ++ captured_copy deep state w) w in
  capture_end deep state e w
  = if deep then
      (length (end_snaps w),
       with_end_snaps
         (λ h, h ++ [MkEndSnapshot (captured_state deep state w) (length (ends w))
                       (utc_clock w) i])
         (with_id_counter c
            (with_ends (λ h, h ++ [MkEnd (end_data e0) (Some i)]) w0)))
    else
      (length (end_snaps w),
       with_end_snaps
         (λ h, h ++ [MkEndSnapshot (captured_state deep state w) e (utc_clock w) i])
         (with_end_id e i c w0)).
Proof.
  intros He e0 i c w0. subst e0 i c w0.
  unfold capture_end. rewrite capture_state_eq.
  set (w0 := with_states _ w).
  assert (ends w0 = ends w) as Hn0 by done.
  assert (id_counter w0 = id_counter w) as Hc0 by done.
  destruct deep.
  - unfold end_deep_copy_data, new_EndSnapshot. rewrite Hn0.
    rewrite end_get_snapshot_id_eq by (cbn; rewrite length_app; cbn; lia).
    cbn [ends with_ends]. rewrite Hn0, lookup_total_snoc.
    unfold recorded_id, counter_after, with_end_id, with_ends, with_id_counter,
      with_end_snaps.
    cbn. rewrite lookup_total_snoc.
    rewrite insert_app_r_alt, Nat.sub_diag by done. done.
  - unfold new_EndSnapshot. rewrite end_get_snapshot_id_eq by by rewrite Hn0.
    unfold recorded_id, counter_after. rewrite Hn0, Hc0. done.
Qed.

(** The snapshot object that [capture_node] adds, for any node reference:
    the objects that existed are left as they were. *)
Lemma capture_node_snaps deep state node w :
  ∃ w' x,
    capture_node deep state node w = (length (node_snaps w), w')
    ∧ node_snaps w' = node_snaps w ++ [x]
    ∧ end_snaps w' = end_snaps w
    ∧ states w' = states w ++ captured_copy deep state w
    ∧ utc_clock w' = utc_clock w ∧ perf_clock w' = perf_clock w
    ∧ ns_state x = captured_state deep state w
    ∧ (deep = false → ns_node x = node)
    ∧ ns_status x = created ∧ ns_start_ts x = None ∧ ns_duration x = None.
Proof.
  unfold capture_node. rewrite capture_state_eq.
  set (w0 := with_states _ w).
  unfold node_deep_copy, new_NodeSnapshot, node_get_snapshot_id, generate_snapshot_id.
  destruct deep;
    repeat match goal with
           | |- context [match node_snapshot_id ?n with _ => _ end] =>
               destruct (node_snapshot_id n); cbn beta iota zeta
           end;
    (eexists _, _; split; [reflexivity |]); by repeat split.
Qed.

Lemma capture_end_snaps deep state e w :
  ∃ w' x,
    capture_end deep state e w = (length (end_snaps w), w')
    ∧ end_snaps w' = end_snaps w ++ [x]
    ∧ node_snaps w' = node_snaps w
    ∧ states w' = states w ++ captured_copy deep state w
    ∧ es_state x = captured_state deep state w
    ∧ (deep = false → es_result x = e)
    ∧ es_ts x = now_utc w.
Proof.
  unfold capture_end. rewrite capture_state_eq.
  set (w0 := with_states _ w).
  unfold end_deep_copy_data, new_EndSnapshot, end_get_snapshot_id, generate_snapshot_id.
  destruct deep;
    repeat match goal with
           | |- context [match end_snapshot_id ?n with _ => _ end] =>
               destruct (end_snapshot_id n); cbn beta iota zeta
           end;
    (eexists _, _; split; [reflexivity |]); by repeat split.
Qed.

(** A reference to a state is [None] or points to an object of the store. *)
Definition valid_state (w : World) (state : option loc) : Prop :=
  match state with Some l => l < length (states w) | None => True end.

(** What the snapshot that [capture_node] adds holds, for a state and a node
    that exist: the contents of the state and of the node. *)
Lemma capture_node_contents deep state node w w' x :
  valid_state w state → node < length (nodes w) →
  capture_node deep state node w = (length (node_snaps w), w') →
  node_snaps w' = node_snaps w ++ [x] →
  state_value w' (ns_state x) = state_value w state
  ∧ same_node (nodes w' !!! ns_node x) (nodes w !!! node)
  ∧ (deep = false → ns_state x = state).
Proof.
  intros Hstate Hnode. rewrite capture_node_eq by done.
  destruct deep; intros [= <-]; cbn [node_snaps with_node_snaps];
    intros [_ <-]%app_inj_tail; cbn [ns_state ns_node].
  - split; [| split; [| done]].
    + destruct state as [l|]; [| done]. cbn. apply lookup_total_snoc.
    + cbn. by rewrite lookup_total_snoc.
  - split; [| split; [| by destruct state]].
    + destruct state as [l|]; cbn; [| done]. by rewrite app_nil_r.
    + cbn. by rewrite list_lookup_total_insert_eq.
Qed.

Lemma capture_end_contents deep state e w w' x :
  valid_state w state → e < length (ends w) →
  capture_end deep state e w = (length (end_snaps w), w') →
  end_snaps w' = end_snaps w ++ [x] →
  state_value w' (es_state x) = state_value w state
  ∧ same_end (ends w' !!! es_result x) (ends w !!! e)
  ∧ (deep = false → es_state x = state).
Proof.
  intros Hstate He. rewrite capture_end_eq by done.
  destruct deep; intros [= <-]; cbn [end_snaps with_end_snaps];
    intros [_ <-]%app_inj_tail; cbn [es_state es_result].
  - split; [| split; [| done]].
    + destruct state as [l|]; [| done]. cbn. apply lookup_total_snoc.
    + unfold same_end. cbn. by rewrite lookup_total_snoc.
  - split; [| split; [| by destruct state]].
    + destruct state as [l|]; cbn; [| done]. by rewrite app_nil_r.
    + unfold same_end. cbn. by rewrite list_lookup_total_insert_eq.
Qed.

(** ** The latest-only backend *)

(** [repr] on some IDs. *)
Example py_repr_examples :
  py_repr "Foo:1" = "'Foo:1'"
  ∧ py_repr "it's:2" = String dquote ("it's:2" +:+ String dquote "")
  ∧ py_repr ("a'b" +:+ String dquote "c") = "'a\'b" +:+ String dquote "c'"
  ∧ py_repr "a\b" = "'a\\b'"
  ∧ py_repr (String (ascii_of_nat 10) (String (ascii_of_nat 127) "")) = "'\n\x7f'"
  ∧ py_repr (String (ascii_of_nat 9) (String (ascii_of_nat 31) "")) = "'\t\x1f'".
Proof. vm_compute. repeat split. Qed.

(** C5: [SimpleStatePersistence] holds its snapshots in the one field
    [last_snapshot].  [snapshot_node] and [snapshot_end] put there, whatever
    was there before, a reference to one new snapshot object, which is the
    snapshot of what they were given: its state has the contents of the
    state, its node (or result) those of the node (or [End]), and with
    [deep_copy] off they are the very objects; a node snapshot has the status
    [created] and no timing, an end snapshot the time of the call.  [restore]
    returns what the field holds ([None] on a new backend), and
    [record_run] raises [AssertionError] unless the requested ID is that of
    the current snapshot; for IDs of ASCII characters the message is the one
    of the code, with the [repr] of the two IDs. *)
Theorem simple_holds_latest_only :
  (∀ self w state node,
     ∃ self' w' x,
       SimpleStatePersistence.snapshot_node state node (self, w) = ((self', w'), Ok tt)
       ∧ SimpleStatePersistence.last_snapshot self' = Some (RNode (length (node_snaps w)))
       ∧ SimpleStatePersistence.deep_copy self' = SimpleStatePersistence.deep_copy self
       ∧ node_snaps w' = node_snaps w ++ [x]
       ∧ end_snaps w' = end_snaps w
       ∧ ns_status x = created ∧ ns_start_ts x = None ∧ ns_duration x = None
       ∧ (SimpleStatePersistence.deep_copy self = false → ns_node x = node)
       ∧ (valid_state w state → node < length (nodes w) →
          state_value w' (ns_state x) = state_value w state
          ∧ same_node (nodes w' !!! ns_node x) (nodes w !!! node)
          ∧ (SimpleStatePersistence.deep_copy self = false → ns_state x = state))
       ∧ SimpleStatePersistence.restore (self', w')
         = ((self', w'), Ok (Some (RNode (length (node_snaps w))))))
  ∧ (∀ self w state e,
       ∃ self' w' x,
         SimpleStatePersistence.snapshot_end state e (self, w) = ((self', w'), Ok tt)
         ∧ SimpleStatePersistence.last_snapshot self' = Some (REnd (length (end_snaps w)))
         ∧ SimpleStatePersistence.deep_copy self' = SimpleStatePersistence.deep_copy self
         ∧ end_snaps w' = end_snaps w ++ [x]
         ∧ node_snaps w' = node_snaps w
         ∧ es_ts x = now_utc w
         ∧ (SimpleStatePersistence.deep_copy self = false → es_result x = e)
         ∧ (valid_state w state → e < length (ends w) →
            state_value w' (es_state x) = state_value w state
            ∧ same_end (ends w' !!! es_result x) (ends w !!! e)
            ∧ (SimpleStatePersistence.deep_copy self = false → es_state x = state))
         ∧ SimpleStatePersistence.restore (self', w')
           = ((self', w'), Ok (Some (REnd (length (end_snaps w))))))
  ∧ (∀ self w,
       SimpleStatePersistence.restore (self, w)
       = ((self, w), Ok (SimpleStatePersistence.last_snapshot self)))
  ∧ (∀ w, SimpleStatePersistence.restore (SimpleStatePersistence.new, w)
          = ((SimpleStatePersistence.new, w), Ok None))
  ∧ (∀ A (body : Py _ A) self w id l,
       SimpleStatePersistence.last_snapshot self = Some (RNode l) →
       id ≠ ns_id (node_snaps w !!! l) →
       ∃ msg,
         SimpleStatePersistence.record_run id body (self, w)
         = ((self, w), Raise (Exn AssertionError msg))
         ∧ (is_ascii id = true → is_ascii (ns_id (node_snaps w !!! l)) = true →
            msg = "snapshot_id must match the last snapshot ID: "
                  +:+ py_repr id +:+ " != " +:+ py_repr (ns_id (node_snaps w !!! l)))).
Proof.
  split; [| split; [| split; [done | split; [done |]]]].
  - intros self w state node. rewrite simple_snapshot_node_capture.
    destruct (capture_node_snaps (SimpleStatePersistence.deep_copy self) state node w)
      as (w' & x & Hc & Hns & Hes & _ & _ & _ & _ & Hnd & Hs & Hts & Hd).
    rewrite Hc. eexists _, w', x. split; [reflexivity |]. cbn.
    do 7 (split; [done |]). split; [done |]. split; [| done].
    intros Hstate Hnode. by eapply capture_node_contents.
  - intros self w state e. rewrite simple_snapshot_end_capture.
    destruct (capture_end_snaps (SimpleStatePersistence.deep_copy self) state e w)
      as (w' & x & Hc & Hes & Hns & _ & _ & Hr & Hts).
    rewrite Hc. eexists _, w', x. split; [reflexivity |]. cbn.
    do 5 (split; [done |]). split; [done |]. split; [| done].
    intros Hstate He. by eapply capture_end_contents.
  - intros A body self w id l Hl Hid.
    unfold SimpleStatePersistence.record_run. rewrite Hl.
    rewrite bool_decide_eq_false_2 by done. by eexists.
Qed.

Lemma simple_holds_latest_only_witness :
  let self := SimpleStatePersistence.Mk false (Some (RNode 0)) in
  let w := with_states (λ _, [PInt 5]) one_snapshot in
  (SimpleStatePersistence.record_run "it's:2" (ret tt) (self, w)).2
  = Raise (Exn AssertionError
             ("snapshot_id must match the last snapshot ID: "
              +:+ String dquote ("it's:2" +:+ String dquote " != 'Foo:1'")))
  ∧ ∃ self' w' x,
      SimpleStatePersistence.snapshot_node (Some 0) 0 (self, w) = ((self', w'), Ok tt)
      ∧ SimpleStatePersistence.last_snapshot self' = Some (RNode 1)
      ∧ node_snaps w' = node_snaps w ++ [x]
      ∧ state_value w' (ns_state x) = PInt 5
      ∧ same_node (nodes w' !!! ns_node x) (MkNode "Foo" [] (Some "Foo:1"))
      ∧ ns_state x = Some 0 ∧ ns_node x = 0.
Proof.
  intros self w. split.
  - destruct (proj2 (proj2 (proj2 (proj2 simple_holds_latest_only))) unit (ret tt)
                self w "it's:2" 0 eq_refl) as (msg & -> & Hmsg); [discriminate |].
    cbn [snd]. rewrite Hmsg; reflexivity.
  - destruct (proj1 simple_holds_latest_only self w (Some 0) 0)
      as (self' & w' & x & Hrun & Hlast & _ & Hns & _ & _ & _ & _ & Hnode & Hcontents & _).
    destruct Hcontents as (Hstate & Hsame & Hshared); [cbn; lia | cbn; lia |].
    exists self', w', x. repeat split; auto; apply Hsame.
Defined.

(** ** Deep copies *)

(** Mutation of the state object [l]. *)
Definition write_state (l : loc) (v : pyval) (w : World) : World :=
  with_states (λ h, <[l := v]> h) w.

(** [s.state] for a snapshot of either class. *)
Definition snapshot_state (w : World) (s : Snapshot) : option loc :=
  match s with
  | RNode k => ns_state (node_snaps w !!! k)
  | REnd k => es_state (end_snaps w !!! k)
  end.

Definition valid_snapshot (w : World) (s : Snapshot) : Prop :=
  match s with
  | RNode k => k < length (node_snaps w)
  | REnd k => k < length (end_snaps w)
  end.

(** The node snapshot [s] of the store [w'] holds copies, made in the store
    [w], of the state [l] and of the node [node]: new objects with the
    contents of that time, which no later assignment to an object of [w]
    changes. *)
Definition node_captured (w w' : World) (l node s : loc) : Prop :=
  ∃ n, node_snaps w' !! s = Some n
       ∧ ns_state n = Some (length (states w))
       ∧ ns_node n = length (nodes w)
       ∧ state_value w' (ns_state n) = states w !!! l
       ∧ same_node (nodes w' !!! ns_node n) (nodes w !!! node)
       ∧ (∀ l0 v, l0 < length (states w) →
            state_value (write_state l0 v w') (ns_state n) = states w !!! l)
       ∧ (∀ k f, k < length (nodes w) →
            same_node (nodes (with_nodes (alter f k) w') !!! ns_node n) (nodes w !!! node)).

Definition end_captured (w w' : World) (l e s : loc) : Prop :=
  ∃ n, end_snaps w' !! s = Some n
       ∧ es_state n = Some (length (states w))
       ∧ es_result n = length (ends w)
       ∧ state_value w' (es_state n) = states w !!! l
       ∧ same_end (ends w' !!! es_result n) (ends w !!! e)
       ∧ (∀ l0 v, l0 < length (states w) →
            state_value (write_state l0 v w') (es_state n) = states w !!! l)
       ∧ (∀ k f, k < length (ends w) →
            same_end (ends (with_ends (alter f k) w') !!! es_result n) (ends w !!! e)).

Lemma capture_node_deep w l node :
  l < length (states w) → node < length (nodes w) →
  ∃ w', capture_node true (Some l) node w = (length (node_snaps w), w')
        ∧ node_captured w w' l node (length (node_snaps w)).
Proof.
  intros Hl Hnode. rewrite capture_node_eq by done. cbn [captured_state captured_copy].
  eexists. split; [reflexivity |].
  eexists. split; [cbn; apply list_lookup_middle; done |].
  cbn [ns_state ns_node].
  repeat split.
  - cbn. apply lookup_total_snoc.
  - cbn. by rewrite lookup_total_snoc.
  - cbn. by rewrite lookup_total_snoc.
  - intros l0 v Hl0. cbn.
    rewrite list_lookup_total_insert_ne by lia.
    apply lookup_total_snoc.
  - cbn. rewrite list_lookup_total_alter_ne by lia. by rewrite lookup_total_snoc.
  - cbn. rewrite list_lookup_total_alter_ne by lia. by rewrite lookup_total_snoc.
Qed.

Lemma capture_end_deep w l e :
  l < length (states w) → e < length (ends w) →
  ∃ w', capture_end true (Some l) e w = (length (end_snaps w), w')
        ∧ end_captured w w' l e (length (end_snaps w)).
Proof.
  intros Hl He. rewrite capture_end_eq by done. cbn [captured_state captured_copy].
  eexists. split; [reflexivity |].
  eexists. split; [cbn; apply list_lookup_middle; done |].
  cbn [es_state es_result].
  repeat split.
  - cbn. apply lookup_total_snoc.
  - cbn. by rewrite lookup_total_snoc.
  - intros l0 v Hl0. cbn.
    rewrite list_lookup_total_insert_ne by lia.
    apply lookup_total_snoc.
  - intros k f Hk. unfold same_end. cbn.
    rewrite list_lookup_total_alter_ne by lia. by rewrite lookup_total_snoc.
Qed.

(** A write to the state [l] is not seen through a snapshot that refers to
    another object. *)
Lemma write_state_apart w l v s :
  snapshot_state w s ≠ Some l →
  snapshot_state (write_state l v w) s = snapshot_state w s
  ∧ state_value (write_state l v w) (snapshot_state w s) = state_value w (snapshot_state w s).
Proof.
  intros Hne. split; [by destruct s |].
  destruct (snapshot_state w s) as [k|]; [|done].
  cbn. apply list_lookup_total_insert_ne. congruence.
Qed.

(** With deep copies no snapshot of the history comes to refer to the state
    object of the run. *)
Lemma full_snapshot_keeps_apart self w l state :
  FullStatePersistence.deep_copy self = true →
  l < length (states w) →
  Forall (valid_snapshot w) (FullStatePersistence.history self) →
  Forall (λ s, snapshot_state w s ≠ Some l) (FullStatePersistence.history self) →
  (∀ node, node < length (nodes w) →
     ∀ st', FullStatePersistence.snapshot_node state node (self, w) = (st', Ok tt) →
       Forall (valid_snapshot st'.2) (FullStatePersistence.history st'.1)
       ∧ Forall (λ s, snapshot_state st'.2 s ≠ Some l) (FullStatePersistence.history st'.1))
  ∧ (∀ e, e < length (ends w) →
       ∀ st', FullStatePersistence.snapshot_end state e (self, w) = (st', Ok tt) →
         Forall (valid_snapshot st'.2) (FullStatePersistence.history st'.1)
         ∧ Forall (λ s, snapshot_state st'.2 s ≠ Some l) (FullStatePersistence.history st'.1)).
Proof.
  intros Hdeep Hl Hvalid Hapart.
  assert (captured_state true state w ≠ Some l) as Hnew.
  { destruct state; cbn; [intros [= ?]; lia | done]. }
  split.
  - intros node Hnode st'. rewrite full_snapshot_node_capture, Hdeep.
    rewrite capture_node_eq by done. intros [= <-]. cbn [fst snd].
    unfold FullStatePersistence.append. cbn [FullStatePersistence.history].
    split; apply Forall_app; split.
    + eapply Forall_impl; [exact Hvalid |].
      intros [k|k]; cbn; rewrite ?length_app; cbn; lia.
    + repeat constructor. cbn. rewrite length_app. cbn. lia.
    + rewrite Forall_forall in Hvalid, Hapart. apply Forall_forall. intros s Hs.
      specialize (Hvalid s Hs). specialize (Hapart s Hs).
      destruct s as [k|k]; cbn in *; [|done].
      by rewrite lookup_total_snoc_lt.
    + repeat constructor. cbn. by rewrite lookup_total_snoc.
  - intros e He st'. rewrite full_snapshot_end_capture, Hdeep.
    rewrite capture_end_eq by done. intros [= <-]. cbn [fst snd].
    unfold FullStatePersistence.append. cbn [FullStatePersistence.history].
    split; apply Forall_app; split.
    + eapply Forall_impl; [exact Hvalid |].
      intros [k|k]; cbn; rewrite ?length_app; cbn; lia.
    + repeat constructor. cbn. rewrite length_app. cbn. lia.
    + rewrite Forall_forall in Hvalid, Hapart. apply Forall_forall. intros s Hs.
      specialize (Hvalid s Hs). specialize (Hapart s Hs).
      destruct s as [k|k]; cbn in *; [done |].
      by rewrite lookup_total_snoc_lt.
    + repeat constructor. cbn. by rewrite lookup_total_snoc.
Qed.

(** C4: with [deep_copy] on, [snapshot_node] and [snapshot_end] of both
    backends record a snapshot whose state and whose node (or [End]) are new
    objects with the contents of the originals at that time, so that no later
    assignment to the state of the run, or to any object that existed, shows
    in the snapshot; in a history of [FullStatePersistence] recorded that way
    no snapshot refers to the state of the run, and a write to that state
    leaves the state of every snapshot as it was.  [deep_copy] is [False] by
    default in [SimpleStatePersistence] and [True] in [FullStatePersistence]. *)
Theorem deep_copy_captures :
  SimpleStatePersistence.deep_copy SimpleStatePersistence.new = false
  ∧ FullStatePersistence.deep_copy FullStatePersistence.new = true
  ∧ (∀ self w l node,
       FullStatePersistence.deep_copy self = true →
       l < length (states w) → node < length (nodes w) →
       ∃ w', FullStatePersistence.snapshot_node (Some l) node (self, w)
             = ((FullStatePersistence.append (RNode (length (node_snaps w))) self, w'), Ok tt)
             ∧ node_captured w w' l node (length (node_snaps w)))
  ∧ (∀ self w l e,
       FullStatePersistence.deep_copy self = true →
       l < length (states w) → e < length (ends w) →
       ∃ w', FullStatePersistence.snapshot_end (Some l) e (self, w)
             = ((FullStatePersistence.append (REnd (length (end_snaps w))) self, w'), Ok tt)
             ∧ end_captured w w' l e (length (end_snaps w)))
  ∧ (∀ self w l node,
       SimpleStatePersistence.deep_copy self = true →
       l < length (states w) → node < length (nodes w) →
       ∃ w', SimpleStatePersistence.snapshot_node (Some l) node (self, w)
             = ((SimpleStatePersistence.Mk true (Some (RNode (length (node_snaps w)))), w'),
                Ok tt)
             ∧ node_captured w w' l node (length (node_snaps w)))
  ∧ (∀ self w l e,
       SimpleStatePersistence.deep_copy self = true →
       l < length (states w) → e < length (ends w) →
       ∃ w', SimpleStatePersistence.snapshot_end (Some l) e (self, w)
             = ((SimpleStatePersistence.Mk true (Some (REnd (length (end_snaps w)))), w'),
                Ok tt)
             ∧ end_captured w w' l e (length (end_snaps w)))
  ∧ (∀ self w l state,
       FullStatePersistence.deep_copy self = true →
       l < length (states w) →
       Forall (valid_snapshot w) (FullStatePersistence.history self) →
       Forall (λ s, snapshot_state w s ≠ Some l) (FullStatePersistence.history self) →
       (∀ v s, s ∈ FullStatePersistence.history self →
          state_value (write_state l v w) (snapshot_state (write_state l v w) s)
          = state_value w (snapshot_state w s))
       ∧ (∀ node, node < length (nodes w) →
          ∀ st', FullStatePersistence.snapshot_node state node (self, w) = (st', Ok tt) →
            Forall (valid_snapshot st'.2) (FullStatePersistence.history st'.1)
            ∧ Forall (λ s, snapshot_state st'.2 s ≠ Some l)
                     (FullStatePersistence.history st'.1))
       ∧ (∀ e, e < length (ends w) →
          ∀ st', FullStatePersistence.snapshot_end state e (self, w) = (st', Ok tt) →
            Forall (valid_snapshot st'.2) (FullStatePersistence.history st'.1)
            ∧ Forall (λ s, snapshot_state st'.2 s ≠ Some l)
                     (FullStatePersistence.history st'.1))).
Proof.
  split; [done |]. split; [done |].
  split; [| split; [| split; [| split]]].
  - intros self w l node Hdeep Hl Hnode.
    rewrite full_snapshot_node_capture, Hdeep.
    destruct (capture_node_deep w l node Hl Hnode) as (w' & -> & Hc). eauto.
  - intros self w l e Hdeep Hl He.
    rewrite full_snapshot_end_capture, Hdeep.
    destruct (capture_end_deep w l e Hl He) as (w' & -> & Hc). eauto.
  - intros self w l node Hdeep Hl Hnode.
    rewrite simple_snapshot_node_capture, Hdeep.
    destruct (capture_node_deep w l node Hl Hnode) as (w' & -> & Hc). eauto.
  - intros self w l e Hdeep Hl He.
    rewrite simple_snapshot_end_capture, Hdeep.
    destruct (capture_end_deep w l e Hl He) as (w' & -> & Hc). eauto.
  - intros self w l state Hdeep Hl Hvalid Hapart. split.
    + intros v s Hs. rewrite Forall_forall in Hapart.
      destruct (write_state_apart w l v s (Hapart s Hs)) as [-> ->]. done.
    + by apply full_snapshot_keeps_apart.
Qed.

Lemma deep_copy_captures_witness :
  let w := TestPersistence.start TestPersistence.graph (MkNode "Foo" [] None)
             [TestPersistence.MyState 1 ""] in
  ∃ w', FullStatePersistence.snapshot_node (Some 0) 0 (FullStatePersistence.new, w)
        = ((FullStatePersistence.append (RNode 0) FullStatePersistence.new, w'), Ok tt)
        ∧ node_captured w w' 0 0 0.
Proof.
  intros w.
  apply (proj1 (proj2 (proj2 deep_copy_captures)) FullStatePersistence.new w 0 0);
    [reflexivity | cbn; lia | cbn; lia].
Defined.

(** ** Snapshot IDs *)



Lemma append_cons (c : ascii) (a s : string) : String c a +:+ s = String c (a +:+ s).
Proof. reflexivity. Qed.








Definition parsed_id (p : Parsed) : option string :=
  match p with
  | ParsedNode _ _ _ _ _ _ id => id
  | ParsedEnd _ _ _ id => id
  end.





(** The store [w'] has the snapshot and state objects of [w] and maybe more. *)
Definition extends (w w' : World) : Prop :=
  (∃ a, node_snaps w' = node_snaps w ++ a) ∧ (∃ a, end_snaps w' = end_snaps w ++ a)
  ∧ (∃ a, states w' = states w ++ a).

Lemma extends_refl w : extends w w.
Proof. repeat split; exists []; by rewrite app_nil_r. Qed.

Lemma extends_trans w1 w2 w3 : extends w1 w2 → extends w2 w3 → extends w1 w3.
Proof.
  intros ([a1 H1] & [a2 H2] & [a3 H3]) ([b1 G1] & [b2 G2] & [b3 G3]).
  repeat split; [exists (a1 ++ b1) | exists (a2 ++ b2) | exists (a3 ++ b3)];
    rewrite app_assoc; congruence.
Qed.

Lemma extends_valid w w' s : extends w w' → valid_snapshot w s → valid_snapshot w' s.
Proof.
  intros ([a1 H1] & [a2 H2] & _). destruct s; cbn; rewrite ?H1, ?H2, length_app; lia.
Qed.

(** The snapshot made for a validated document is a new object. *)
Lemma build_snapshot_fresh p w s w' :
  build_snapshot p w = (s, w') →
  valid_snapshot w' s ∧ ¬ valid_snapshot w s ∧ extends w w'.
Proof.
  assert (∀ v, ∃ st w1, alloc_state v w = (st, w1)
             ∧ node_snaps w1 = node_snaps w ∧ end_snaps w1 = end_snaps w
             ∧ ∃ a, states w1 = states w ++ a) as Halloc.
  { intros v. destruct v; (eexists _, _; split; [reflexivity |]); cbn;
      (split; [done |]); (split; [done |]); eauto; exists []; by rewrite app_nil_r. }
  unfold build_snapshot, node_get_snapshot_id, end_get_snapshot_id, generate_snapshot_id.
  destruct p as [state nid fields start_ts duration status id|state data ts id];
    destruct (Halloc state) as (st & w1 & -> & Hns & Hes & a & Hst).
  - destruct id as [i|]; [| destruct (node_snapshot_id _)]; intros [= <- <-];
      unfold extends; cbn; rewrite Hns, Hes, Hst, length_app; cbn;
      (split; [lia |]); (split; [lia |]); repeat split; eauto;
      exists []; by rewrite app_nil_r.
  - destruct id as [i|]; [| destruct (end_snapshot_id _)]; intros [= <- <-];
      unfold extends; cbn; rewrite Hns, Hes, Hst, length_app; cbn;
      (split; [lia |]); (split; [lia |]); repeat split; eauto;
      exists []; by rewrite app_nil_r.
Qed.

Lemma load_snapshots_fresh ta items : ∀ w w' h,
  load_snapshots ta items w = (w', Ok h) →
  length h = length items
  ∧ Forall (λ s, valid_snapshot w' s ∧ ¬ valid_snapshot w s) h
  ∧ extends w w'.
Proof.
  induction items as [|j items IH]; intros w w' h; cbn [load_snapshots].
  - intros [= <- <-]. split; [done |]. split; [constructor | apply extends_refl].
  - unfold bind at 1, load_snapshot.
    destruct (parse_snapshot ta j) as [p|]; [| by intros [= ]].
    destruct (build_snapshot p w) as [s w1] eqn:Hb.
    destruct (build_snapshot_fresh p w s w1 Hb) as (Hv & Hnv & Hext).
    unfold bind at 1.
    destruct (load_snapshots ta items w1) as [w2 [ss|e]] eqn:Hl; [| by intros [= ]].
    unfold ret. intros [= <- <-].
    destruct (IH w1 w2 ss Hl) as (Hlen & Hall & Hext2).
    split; [cbn; by rewrite Hlen |]. split; [| by eapply extends_trans].
    constructor.
    + split; [by eapply extends_valid | done].
    + eapply Forall_impl; [exact Hall |]. intros s' [Hv' Hnv']. split; [done |].
      intros Hold. apply Hnv'. by eapply extends_valid.
Qed.









(** The scenario of [test_dump_load_state]: a run on the persistence [sp],
    then the document without IDs loaded into the new persistence [sp3]. *)
Module Scenario.
Import TestPersistence.

Definition w0 : World := start graph (MkNode "Foo" [] None) [MyState 1 ""].

Definition after_run : option ((FullStatePersistence.t * World) * result RunResult) :=
  graph_run [Foo; Bar] graph PNone 10 0 (Some 0) (FullStatePersistence.new, w0).

Definition sp : FullStatePersistence.t :=
  match after_run with Some ((p, _), _) => p | None => FullStatePersistence.new end.
Definition w1 : World :=
  match after_run with Some ((_, w), _) => w | None => w0 end.

(** [graph.set_persistence_types(sp3)] for the graph over [MyState] and [int]. *)
Definition set_persistence_types : Py FullStatePersistence.St unit :=
  FullStatePersistence.set_types (ret (MyState_t, TInt)).


End Scenario.






(** ** The missing-reference report *)

(** The references of a node set, each with its referrer, in the order of the
    declarations. *)
Definition edges (defs : list NodeDef) : list (string * string) :=
  flat_map (λ d, map (λ e, (e, nd_id d)) (nd_next d)) defs.

(** A list without the later occurrences of its elements. *)
Definition nodup_first (l : list string) : list string :=
  reverse (remove_dups (reverse l)).

(** The nodes that are referenced but not declared, in the order in which
    they are first referenced, and the referrers of a node. *)
Definition missing_nodes (defs : list NodeDef) : list string :=
  nodup_first (filter (λ e, e ∉ map nd_id defs) (map fst (edges defs))).

Definition referrers (defs : list NodeDef) (x : string) : list string :=
  map snd (filter (λ p, p.1 = x) (edges defs)).

Lemma nodup_first_snoc l x :
  nodup_first (l ++ [x]) = if decide (x ∈ l) then nodup_first l else nodup_first l ++ [x].
Proof.
  unfold nodup_first. rewrite reverse_snoc. cbn [remove_dups].
  destruct (decide_rel elem_of x (reverse l)) as [Hin|Hin];
    destruct (decide (x ∈ l)) as [Hin'|Hin']; try done.
  - exfalso. apply Hin'. by apply elem_of_reverse.
  - exfalso. apply Hin. by apply elem_of_reverse.
  - by rewrite reverse_cons.
Qed.

Lemma elem_of_nodup_first l x : x ∈ nodup_first l ↔ x ∈ l.
Proof.
  unfold nodup_first. by rewrite elem_of_reverse, elem_of_remove_dups, elem_of_reverse.
Qed.

Lemma NoDup_nodup_first l : NoDup (nodup_first l).
Proof. unfold nodup_first. rewrite reverse_Permutation. apply NoDup_remove_dups. Qed.

Lemma filter_none {A} (P : A → Prop) `{!∀ x, Decision (P x)} (l : list A) :
  Forall (λ x, ¬ P x) l → filter P l = [].
Proof.
  induction 1 as [|x l Hx _ IH]; [done |]. by rewrite filter_cons_False.
Qed.

Definition add_pair (bad : list (string * list string)) (p : string * string) :=
  add_referrer p.1 p.2 bad.

Lemma bad_edges_fold defs :
  bad_edges defs
  = foldl add_pair [] (filter (λ p, p.1 ∉ map nd_id defs) (edges defs)).
Proof.
  unfold bad_edges, edges. generalize (map nd_id defs) as known. intros known.
  generalize (@nil (string * list string)) as acc.
  induction defs as [|d defs IH]; intros acc; [done |].
  cbn [foldl flat_map]. rewrite filter_app, foldl_app, IH. f_equal.
  generalize (nd_next d) as next. intros next. revert acc.
  induction next as [|e next IHn]; intros acc; [done |].
  cbn [foldl map]. rewrite filter_cons. cbn [fst].
  case_bool_decide as Hin; destruct (decide (e ∉ known)) as [Hd|Hd]; done.
Qed.

Lemma add_referrer_present (f : string → list string) ks e r :
  NoDup ks → e ∈ ks →
  add_referrer e r (map (λ x, (x, f x)) ks)
  = map (λ x, (x, if decide (x = e) then f x ++ [r] else f x)) ks.
Proof.
  induction ks as [|k ks IH]; [by intros _ ?%elem_of_nil |].
  intros [Hk Hnd]%NoDup_cons Hin. cbn [map add_referrer].
  case_bool_decide as Hke.
  - subst k. rewrite decide_True by done. f_equal.
    apply map_ext_in. intros x Hx%list_elem_of_In. rewrite decide_False; [done |].
    by intros ->.
  - rewrite decide_False by done. f_equal. apply IH; [done |].
    apply elem_of_cons in Hin as [->|]; done.
Qed.

Lemma add_referrer_absent (f : string → list string) ks e r :
  e ∉ ks →
  add_referrer e r (map (λ x, (x, f x)) ks) = map (λ x, (x, f x)) ks ++ [(e, [r])].
Proof.
  induction ks as [|k ks IH]; [done |].
  intros [Hk Hin]%not_elem_of_cons. cbn [map add_referrer].
  rewrite bool_decide_eq_false_2 by done. cbn. f_equal. by apply IH.
Qed.

Definition refs_in (ps : list (string * string)) (x : string) : list string :=
  map snd (filter (λ p, p.1 = x) ps).

(** The table that the insertions build: one entry per key, in the order of
    first occurrence, with the values of the key in their order. *)
Lemma group_spec ps :
  foldl add_pair [] ps
  = map (λ x, (x, refs_in ps x)) (nodup_first (map fst ps)).
Proof.
  induction ps as [|[e r] ps IH] using rev_ind; [done |].
  rewrite foldl_app. cbn [foldl]. unfold add_pair at 1. cbn [fst snd]. rewrite IH.
  rewrite map_app. cbn [map fst]. rewrite nodup_first_snoc.
  assert (∀ x, refs_in (ps ++ [(e, r)]) x
               = if decide (x = e) then refs_in ps x ++ [r] else refs_in ps x) as Hrefs.
  { intros x. unfold refs_in. rewrite filter_app, map_app, filter_cons. cbn [fst].
    destruct (decide (e = x)) as [->|Hne].
    - by rewrite decide_True.
    - rewrite decide_False by done. cbn. by rewrite app_nil_r. }
  destruct (decide (e ∈ map fst ps)) as [Hin|Hin].
  - rewrite add_referrer_present
      by (auto using NoDup_nodup_first; by apply elem_of_nodup_first).
    apply map_ext. intros x. by rewrite Hrefs.
  - rewrite add_referrer_absent by (by rewrite elem_of_nodup_first).
    rewrite map_app. cbn [map]. f_equal.
    + apply map_ext_in. intros x Hx%list_elem_of_In. rewrite Hrefs.
      rewrite decide_False; [done |]. intros ->. apply Hin. by apply elem_of_nodup_first.
    + rewrite Hrefs, decide_True by done.
      assert (refs_in ps e = []) as ->; [|done].
      unfold refs_in. rewrite filter_none; [done |].
      apply Forall_forall. intros p Hp Hpe. apply Hin. subst e.
      by apply list_elem_of_fmap_2.
Qed.

(** The table of [bad_edges]: the missing nodes, each with its referrers. *)
Lemma bad_edges_spec defs :
  bad_edges defs = map (λ x, (x, referrers defs x)) (missing_nodes defs).
Proof.
  rewrite bad_edges_fold, group_spec. unfold missing_nodes.
  assert (map fst (filter (λ p, p.1 ∉ map nd_id defs) (edges defs))
          = filter (λ e, e ∉ map nd_id defs) (map fst (edges defs))) as ->.
  { induction (edges defs) as [|p ps IH]; [done |].
    cbn [map]. rewrite !filter_cons. destruct (decide (p.1 ∉ map nd_id defs)); cbn; by rewrite IH. }
  apply map_ext_in. intros x Hx%list_elem_of_In. f_equal.
  apply elem_of_nodup_first, list_elem_of_filter in Hx as [Hx _].
  unfold refs_in, referrers. f_equal.
  induction (edges defs) as [|p ps IH]; [done |].
  rewrite !filter_cons.
  destruct (decide (p.1 ∉ map nd_id defs)) as [Hp|Hp]; rewrite ?filter_cons;
    destruct (decide (p.1 = x)) as [Hpx|Hpx]; try (by rewrite IH); try done.
  exfalso. apply Hp. by subst x.
Qed.

Lemma find_class_None seen id : id ∉ map nd_id seen → find_class seen id = None.
Proof.
  induction seen as [|d seen IH]; [done |].
  cbn. intros [Hd Hin]%not_elem_of_cons.
  rewrite bool_decide_eq_false_2 by done. by apply IH.
Qed.

Lemma duplicate_id_None seen defs :
  NoDup (map nd_id (seen ++ defs)) → duplicate_id seen defs = None.
Proof.
  revert seen. induction defs as [|d defs IH]; intros seen Hnd; [done |].
  cbn. rewrite find_class_None.
  - apply IH. by rewrite <- app_assoc.
  - rewrite map_app in Hnd. apply NoDup_app in Hnd as (_ & Hd & _).
    intros Hin. apply (Hd _ Hin). cbn. left.
Qed.

Lemma append_assoc (a b c : string) : (a +:+ b) +:+ c = a +:+ (b +:+ c).
Proof.
  induction a as [|x a IH]; [done |]. by rewrite !append_cons, IH.
Qed.

Definition setup_error (msg : string) : result Graph := Raise (Exn GraphSetupError msg).

(** C9: over a node set with distinct IDs, graph construction succeeds when
    no node is missing and otherwise raises a setup error: for the one
    missing node [x] with the one referrer [y], [`x` is referenced by `y` but
    not included in the graph.]; for the one missing node with several
    referrers, these in backticks, separated by commas, with [and] before the
    last; for several missing nodes, a heading and one line per missing node
    with its referrers.  The missing nodes are listed in the order in which
    they are first referenced, the referrers in the order of declaration. *)
Theorem missing_reference_messages (defs : list NodeDef) :
  NoDup (map nd_id defs) →
  bad_edges defs = map (λ x, (x, referrers defs x)) (missing_nodes defs)
  ∧ (missing_nodes defs = [] → Graph_new defs = Ok (MkGraph defs))
  ∧ (∀ x y, missing_nodes defs = [x] → referrers defs x = [y] →
       Graph_new defs
       = setup_error ("`" +:+ x +:+ "` is referenced by `" +:+ y
                      +:+ "` but not included in the graph."))
  ∧ (∀ x ys z, missing_nodes defs = [x] → referrers defs x = ys ++ [z] → ys ≠ [] →
       Graph_new defs
       = setup_error ("`" +:+ x +:+ "` is referenced by "
                      +:+ join ", " (map backtick ys) +:+ ", and `" +:+ z
                      +:+ "` but not included in the graph."))
  ∧ (∀ x1 x2 xs, missing_nodes defs = x1 :: x2 :: xs →
       Graph_new defs
       = setup_error ("Nodes are referenced in the graph but not included in the graph:"
                      +:+ nl
                      +:+ join nl (map (λ x, " `" +:+ x +:+ "` is referenced by "
                                             +:+ comma_and (map backtick (referrers defs x)))
                                       (x1 :: x2 :: xs)))).
Proof.
  intros Hnd. pose proof (bad_edges_spec defs) as Hbad.
  assert (Graph_new defs = match validate_edges defs with
                           | Raise e => Raise e
                           | Ok _ => Ok (MkGraph defs)
                           end) as ->.
  { unfold Graph_new. by rewrite duplicate_id_None. }
  unfold validate_edges. rewrite Hbad. split; [done |].
  split; [by intros -> |]. split; [| split].
  - intros x y -> Hy. cbn [map]. unfold bad_edge_line. cbn [fst snd]. rewrite Hy.
    unfold setup_error, backtick, comma_and. cbn [map]. by rewrite !append_assoc.
  - intros x ys z -> Hz Hys. cbn [map]. unfold bad_edge_line. cbn [fst snd]. rewrite Hz.
    assert (comma_and (map backtick (ys ++ [z]))
            = join ", " (map backtick ys) +:+ ", and " +:+ backtick z) as ->.
    { rewrite map_app. cbn [map]. unfold comma_and.
      destruct (map backtick ys) as [|a l] eqn:Hm; [by destruct ys |].
      destruct (l ++ [backtick z]) as [|b l'] eqn:Hl; [by destruct l |].
      cbn [app]. rewrite Hl, <- Hl.
      change (a :: l ++ [backtick z]) with ((a :: l) ++ [backtick z]).
      by rewrite removelast_last, last_last. }
    unfold setup_error, backtick. by rewrite !append_assoc.
  - intros x1 x2 xs ->. cbn [map]. unfold setup_error. do 4 f_equal.
    assert (∀ x, " " +:+ bad_edge_line (x, referrers defs x)
                 = " `" +:+ x +:+ "` is referenced by "
                   +:+ comma_and (map backtick (referrers defs x))) as Hline.
    { intros x. unfold bad_edge_line, backtick. cbn [fst snd]. by rewrite !append_assoc. }
    rewrite !Hline, map_map. do 3 f_equal. apply map_ext. intros x. apply Hline.
Qed.

Lemma missing_reference_messages_witness :
  Graph_new TestGraph.three_bad_nodes_separate
  = setup_error
      "`Eggs` is referenced by `Foo`, `Bar`, and `Spam` but not included in the graph.".
Proof.
  apply (proj1 (proj2 (proj2 (proj2 (missing_reference_messages
            TestGraph.three_bad_nodes_separate ltac:(vm_compute; repeat constructor;
              rewrite ?elem_of_cons, ?elem_of_nil; intuition discriminate)))))
           "Eggs" ["Foo"; "Bar"] "Spam"); [reflexivity | reflexivity | discriminate].
Defined.

(** The messages of [test_one_bad_node] and [test_two_bad_nodes]. *)
Example test_one_bad_node :
  Graph_new TestGraph.one_bad_node
  = setup_error
      "`String2Length` is referenced by `Float2String` but not included in the graph.".
Proof. reflexivity. Qed.

Example test_two_bad_nodes :
  Graph_new TestGraph.two_bad_nodes
  = setup_error
      ("Nodes are referenced in the graph but not included in the graph:" +:+ nl
       +:+ " `Bar` is referenced by `Foo`" +:+ nl +:+ " `Spam` is referenced by `Foo`").
Proof. reflexivity. Qed.

(** ** The run loop *)



(** Modelled from the spec: the turn of the loop with its two first steps in
    the order in which section 4.E writes them, the snapshot, then
    [cursor.snapshot_id]; for comparison with [graph_iter]. *)
Definition graph_iter_as_written {P} `{StatePersistence P} (classes : list NodeDef)
    (g : Graph) (deps : pyval) (cursor : loc) (state : option loc) : Py (P * World) Iter :=
  (snapshot_node state cursor ;;
   sid <- cursor_snapshot_id cursor ;;
   step <- record_run sid (lift (cursor_run classes cursor state deps)) ;;
   route g state step)%py.

(** Without [deep_copy] the order of the two steps makes no difference: the
    snapshot holds the cursor itself, which is given its ID by whichever
    step comes first. *)
Lemma iter_order_shallow classes g deps (p : FullStatePersistence.t) w cursor state :
  FullStatePersistence.deep_copy p = false →
  cursor < length (nodes w) →
  graph_iter classes g deps cursor state (p, w)
  = graph_iter_as_written classes g deps cursor state (p, w).
Proof.
  intros Hdeep Hcursor.
  pose (i := recorded_id (node_id (nodes w !!! cursor))
               (node_snapshot_id (nodes w !!! cursor)) w).
  pose (c := counter_after (node_snapshot_id (nodes w !!! cursor)) w).
  pose (wa := with_node_id cursor i c w).
  pose (w2 := with_node_snaps
                (λ h, h ++ [MkNodeSnapshot (captured_state false state w) cursor
                              None None created i])
                (with_node_id cursor i c
                   (with_states (λ h, h ++ captured_copy false state w) w))).
  assert (node_get_snapshot_id cursor w = (i, wa)) as E1
    by by rewrite node_get_snapshot_id_eq.
  assert (capture_node false state cursor w = (length (node_snaps w), w2)) as E3
    by by rewrite capture_node_eq.
  assert (capture_node false state cursor wa = (length (node_snaps w), w2)) as E2.
  { rewrite capture_node_eq by (unfold wa, with_node_id; cbn; by rewrite length_insert).
    unfold w2, wa, recorded_id, counter_after, with_node_snaps, with_node_id, with_nodes,
      with_states, with_id_counter, captured_state, captured_copy.
    destruct w; cbn. rewrite list_insert_insert_eq.
    rewrite !list_lookup_total_insert_eq by done. cbn. by destruct state. }
  assert (node_get_snapshot_id cursor w2 = (i, w2)) as E4.
  { unfold node_get_snapshot_id.
    assert (nodes w2 !!! cursor
            = MkNode (node_id (nodes w !!! cursor)) (node_fields (nodes w !!! cursor))
                (Some i))
      as -> by (unfold w2, with_node_id; cbn; by rewrite list_lookup_total_insert_eq).
    done. }
  unfold graph_iter, graph_iter_as_written, bind, cursor_snapshot_id.
  cbn [snapshot_node record_run Full_persistence].
  rewrite E1, !full_snapshot_node_capture, Hdeep, E2, E3, E4. done.
Qed.

(** With [deep_copy] on the order matters: the snapshot holds a clone, so an
    ID that the cursor is given after the clone was made is not the ID of the
    snapshot.  In the order as written the first turn of the run of
    [test_dump_load_state], on the default [FullStatePersistence], would end
    in [LookupError]; the run of the test returns. *)
Example iter_as_written_deep_copy :
  (graph_iter_as_written [TestPersistence.Foo; TestPersistence.Bar] TestPersistence.graph
     PNone 0 (Some 0)
     (FullStatePersistence.new,
      TestPersistence.start TestPersistence.graph (MkNode "Foo" [] None)
        [TestPersistence.MyState 1 ""])).2
  = Raise (Exn LookupError "No snapshot found with id=Foo:2").
Proof. vm_compute. reflexivity. Qed.








Lemma find_snapshot_new w id h s :
  Forall (λ r, snapshot_id_of w r ≠ id) h →
  snapshot_id_of w s = id →
  FullStatePersistence.find_snapshot w id (h ++ [s]) = Some s.
Proof.
  intros Hall Hs. induction Hall as [|r h Hr _ IH]; cbn.
  - by rewrite bool_decide_eq_true_2.
  - by rewrite bool_decide_eq_false_2.
Qed.

(** A snapshot that exists keeps its ID when snapshots are added. *)
Lemma snapshot_id_of_grow w w' s new :
  valid_snapshot w s →
  node_snaps w' = node_snaps w ++ new →
  end_snaps w' = end_snaps w →
  snapshot_id_of w' s = snapshot_id_of w s.
Proof.
  intros Hv Hn He. destruct s as [l|l]; cbn in *.
  - by rewrite Hn, lookup_total_app_l.
  - by rewrite He.
Qed.













(** The history of [test_node_error]: [Foo:1] with the status [success], then
    [Spam:2] with the status [error], and no end snapshot. *)
Example test_node_error :
  match graph_run [TestPersistence.Foo'; TestPersistence.Spam] TestPersistence.error_graph
          PNone 10 0 None
          (FullStatePersistence.new,
           TestPersistence.start TestPersistence.error_graph (MkNode "Foo" [] None) [])
  with
  | Some ((p, w), r) =>
      r = Raise (Exn RuntimeError "test error")
      ∧ FullStatePersistence.history p = [RNode 0; RNode 1]
      ∧ node_snaps w
        = [MkNodeSnapshot None 1 (Some 1000%Z) (Some 1%Z) success "Foo:1";
           MkNodeSnapshot None 3 (Some 1001%Z) (Some 1%Z) error "Spam:2"]
      ∧ end_snaps w = []
  | None => False
  end.
Proof. vm_compute. repeat split. Qed.

(** ** The IDs of a history *)








(** ** The JSON round trip *)

(** The values of a type: a dataclass instance has the fields of its class,
    in their order, under distinct names. *)
Fixpoint has_type (t : pytype) (v : pyval) : Prop :=
  match t, v with
  | TNone, PNone => True
  | TInt, PInt _ => True
  | TStr, PStr _ => True
  | TData cls fts, PObj cls' fs =>
      cls = cls'
      ∧ (fix fields (fts : list (string * pytype)) (fs : list (string * pyval)) : Prop :=
           match fts, fs with
           | [], [] => True
           | (k, ft) :: fts', (k', v') :: fs' => k = k' ∧ has_type ft v' ∧ fields fts' fs'
           | _, _ => False
           end) fts fs
      ∧ NoDup (map fst fts)
  | _, _ => False
  end.

Definition fields_typed (fts : list (string * pytype)) (fs : list (string * pyval)) : Prop :=
  (fix fields (fts : list (string * pytype)) (fs : list (string * pyval)) : Prop :=
     match fts, fs with
     | [], [] => True
     | (k, ft) :: fts', (k', v') :: fs' => k = k' ∧ has_type ft v' ∧ fields fts' fs'
     | _, _ => False
     end) fts fs.

Section pytype_induction.
Variable P : pytype → Prop.
Hypothesis HNone : P TNone.
Hypothesis HInt : P TInt.
Hypothesis HStr : P TStr.
Hypothesis HData : ∀ cls fts, Forall (λ kt, P kt.2) fts → P (TData cls fts).

Fixpoint pytype_nested_ind (t : pytype) : P t :=
  match t with
  | TNone => HNone
  | TInt => HInt
  | TStr => HStr
  | TData cls fts =>
      HData cls fts
        ((fix go (fts : list (string * pytype)) : Forall (λ kt, P kt.2) fts :=
            match fts with
            | [] => @List.Forall_nil _ (λ kt, P kt.2)
            | kt :: fts' => @List.Forall_cons _ (λ kt, P kt.2) kt fts' (pytype_nested_ind kt.2) (go fts')
            end) fts)
  end.
End pytype_induction.

Lemma assoc_map_lookup {A B} (f : A → B) (fs : list (string * A)) k v :
  NoDup (map fst fs) → (k, v) ∈ fs →
  assoc k (map (λ kv, (kv.1, f kv.2)) fs) = Some (f v).
Proof.
  induction fs as [|[k' v'] fs IH]; [by intros _ ?%elem_of_nil |].
  cbn [map fst snd assoc]. intros [Hk Hnd]%NoDup_cons [[= -> ->]|Hin]%elem_of_cons.
  - assert (assoc k' (map (λ kv, (kv.1, f kv.2)) fs) = None) as ->.
    { clear -Hk. induction fs as [|[k v] fs IH]; [done |]. cbn in *.
      apply not_elem_of_cons in Hk as [Hne Hk]. rewrite (IH Hk).
      by rewrite bool_decide_eq_false_2. }
    by rewrite bool_decide_eq_true_2.
  - by rewrite (IH Hnd Hin).
Qed.

Lemma assoc_not_in {A} (l : list (string * A)) k :
  k ∉ map fst l → assoc k l = None.
Proof.
  induction l as [|[k' v] l IH]; [done |]. cbn.
  intros [Hne Hk]%not_elem_of_cons. rewrite (IH Hk). by rewrite bool_decide_eq_false_2.
Qed.

Lemma fields_typed_names fts fs : fields_typed fts fs → map fst fs = map fst fts.
Proof.
  revert fs. induction fts as [|[k ft] fts IH]; intros [|[k' v] fs]; cbn; try done.
  intros (-> & _ & Hf). f_equal. by apply IH.
Qed.

(** A value of a type is read back from its JSON form. *)
Lemma validate_fields_to_json fts (extra : list (string * json)) fs0 fs :
  Forall (λ kt, ∀ v, has_type kt.2 v → validate kt.2 (to_json v) = Some v) fts →
  fields_typed fts fs →
  NoDup (map fst fs0) → fs ⊆ fs0 →
  validate_fields fts (extra ++ map (λ kv, (kv.1, to_json kv.2)) fs0) = Some fs.
Proof.
  intros Hall Hty Hnd. revert fs Hty.
  induction Hall as [|[k ft] fts Hft _ IH]; intros [|[k' v] fs]; cbn; try done.
  intros (-> & Hv & Hfs) Hsub.
  assert (assoc k' (extra ++ map (λ kv, (kv.1, to_json kv.2)) fs0) = Some (to_json v)) as ->.
  { assert (∀ (l1 l2 : list (string * json)) x, assoc k' l2 = Some x →
              assoc k' (l1 ++ l2) = Some x) as Happ.
    { intros l1 l2 x Hx. induction l1 as [|[a b] l1 IHl]; [done |]. cbn. by rewrite IHl. }
    apply Happ, assoc_map_lookup; [done |]. apply Hsub. left. }
  cbn [snd] in Hft. cbn. rewrite (Hft v Hv). cbn.
  change ((fix fields (fts0 : list (string * pytype)) : option (list (string * pyval)) :=
             match fts0 with
             | [] => Some []
             | (k0, ft0) :: fts'0 =>
                 jv ← assoc k0 (extra ++ map (λ kv, (kv.1, to_json kv.2)) fs0);
                 v0 ← validate ft0 jv; vs ← fields fts'0; Some ((k0, v0) :: vs)
             end) fts)
    with (validate_fields fts (extra ++ map (λ kv, (kv.1, to_json kv.2)) fs0)).
  rewrite (IH fs Hfs); [done |]. intros x Hx. apply Hsub. by right.
Qed.

Lemma validate_to_json t : ∀ v, has_type t v → validate t (to_json v) = Some v.
Proof.
  induction t as [| | |cls fts IH] using pytype_nested_ind; intros [|z|s|cls' fs]; try done.
  cbn [has_type to_json]. intros (<- & Hfs & Hnd).
  change (validate (TData cls fts) (JObj (map (λ kv, (kv.1, to_json kv.2)) fs)))
    with (PObj cls <$> validate_fields fts ([] ++ map (λ kv, (kv.1, to_json kv.2)) fs)).
  rewrite (validate_fields_to_json fts [] fs fs); try done.
  by rewrite (fields_typed_names fts fs Hfs).
Qed.

(** What Python's [==] compares of a snapshot: the values of its fields. *)
Definition snapshot_value (w : World) (s : Snapshot) : Parsed :=
  match s with
  | RNode l =>
      let n := node_snaps w !!! l in
      let nd := nodes w !!! ns_node n in
      ParsedNode (state_value w (ns_state n)) (node_id nd) (node_fields nd)
                 (ns_start_ts n) (ns_duration n) (ns_status n) (Some (ns_id n))
  | REnd l =>
      let e := end_snaps w !!! l in
      ParsedEnd (state_value w (es_state e)) (end_data (ends w !!! es_result e))
                (es_ts e) (Some (es_id e))
  end.

(** A snapshot fits the codec [ta]: its state has the state type, its node is
    of a registered type (whose payload has no field [node_id], the name
    being reserved) or its result has the run-end type. *)
Definition typed_snapshot (ta : TypeAdapter) (w : World) (s : Snapshot) : Prop :=
  match snapshot_value w s with
  | ParsedNode state nid fields _ _ _ _ =>
      has_type (ta_state_type ta) state
      ∧ ∃ fts, assoc nid (ta_nodes ta) = Some fts
               ∧ fields_typed fts fields
               ∧ NoDup (map fst fts) ∧ "node_id" ∉ map fst fts
  | ParsedEnd state data _ _ =>
      has_type (ta_state_type ta) state ∧ has_type (ta_run_end_type ta) data
  end.

(** The references of a snapshot point to objects of the store. *)
Definition wf_snapshot (w : World) (s : Snapshot) : Prop :=
  match s with
  | RNode l =>
      l < length (node_snaps w)
      ∧ valid_state w (ns_state (node_snaps w !!! l))
      ∧ ns_node (node_snaps w !!! l) < length (nodes w)
  | REnd l =>
      l < length (end_snaps w)
      ∧ valid_state w (es_state (end_snaps w !!! l))
      ∧ es_result (end_snaps w !!! l) < length (ends w)
  end.

(** The store [w'] has the objects of [w], unchanged, and maybe more. *)
Definition grows (w w' : World) : Prop :=
  (∃ a, states w' = states w ++ a) ∧ (∃ a, nodes w' = nodes w ++ a)
  ∧ (∃ a, ends w' = ends w ++ a) ∧ (∃ a, node_snaps w' = node_snaps w ++ a)
  ∧ (∃ a, end_snaps w' = end_snaps w ++ a) ∧ id_counter w' = id_counter w.

Lemma grows_refl w : grows w w.
Proof. repeat split; try (exists []; by rewrite app_nil_r). Qed.

Lemma grows_trans w1 w2 w3 : grows w1 w2 → grows w2 w3 → grows w1 w3.
Proof.
  intros ([a1 H1] & [a2 H2] & [a3 H3] & [a4 H4] & [a5 H5] & H6)
         ([b1 G1] & [b2 G2] & [b3 G3] & [b4 G4] & [b5 G5] & G6).
  repeat split; [exists (a1 ++ b1) | exists (a2 ++ b2) | exists (a3 ++ b3)
                | exists (a4 ++ b4) | exists (a5 ++ b5) | congruence];
    rewrite app_assoc; congruence.
Qed.

Lemma grows_snapshot w w' s :
  grows w w' → wf_snapshot w s →
  snapshot_value w' s = snapshot_value w s ∧ wf_snapshot w' s.
Proof.
  intros ([a1 H1] & [a2 H2] & [a3 H3] & [a4 H4] & [a5 H5] & _).
  assert (∀ st, valid_state w st →
                state_value w' st = state_value w st ∧ valid_state w' st) as Hst.
  { intros [l|]; [|done]. cbn. intros Hl. rewrite H1, length_app.
    split; [by apply lookup_total_app_l | lia]. }
  destruct s as [l|l]; cbn; intros (Hl & Hs & Hn).
  - rewrite H4, lookup_total_app_l by done.
    destruct (Hst _ Hs) as [-> Hs'].
    rewrite H2, lookup_total_app_l, !length_app by done.
    repeat split; try done; lia.
  - rewrite H5, lookup_total_app_l by done.
    destruct (Hst _ Hs) as [-> Hs'].
    rewrite H3, lookup_total_app_l, !length_app by done.
    repeat split; try done; lia.
Qed.

Lemma status_of_name_name s : status_of_name (status_name s) = Some s.
Proof. by destruct s. Qed.

(** The document of a snapshot that fits the codec is validated to the values
    of the snapshot. *)
Lemma parse_dump_snapshot ta w s :
  typed_snapshot ta w s →
  parse_snapshot ta (dump_snapshot w s) = Some (snapshot_value w s).
Proof.
  unfold typed_snapshot. destruct s as [l|l]; cbn [snapshot_value dump_snapshot].
  - set (n := node_snaps w !!! l). set (nd := nodes w !!! ns_node n).
    intros (Hstate & fts & Hreg & Hfields & Hnd & Hres).
    unfold parse_snapshot. cbn [as_obj mbind option_bind].
    set (payload := map (λ kv, (kv.1, to_json kv.2)) (node_fields nd)).
    assert (map fst payload = map fst fts) as Hnames.
    { unfold payload. rewrite map_map. cbn. by apply fields_typed_names. }
    assert (assoc "node_id" (("node_id", JStr (node_id nd)) :: payload)
            = Some (JStr (node_id nd))) as Hnid.
    { cbn. rewrite assoc_not_in by (by rewrite Hnames). done. }
    assert (validate_fields fts (("node_id", JStr (node_id nd)) :: payload)
            = Some (node_fields nd)) as Hpay.
    { apply (validate_fields_to_json fts [("node_id", JStr (node_id nd))]
               (node_fields nd) (node_fields nd)); try done.
      - apply Forall_forall. intros kt _. apply validate_to_json.
      - by rewrite (fields_typed_names fts _ Hfields). }
    set (kvs := [("state", _); ("node", _); ("start_ts", _); ("duration", _);
                 ("status", _); ("kind", _); ("id", _)]).
    assert (assoc "kind" kvs = Some (JStr "node")) as -> by reflexivity.
    assert (assoc "state" kvs = Some (to_json (state_value w (ns_state n)))) as ->
      by reflexivity.
    assert (assoc "node" kvs = Some (JObj (("node_id", JStr (node_id nd)) :: payload))) as ->
      by reflexivity.
    assert (optional "id" kvs as_str = Some (Some (ns_id n))) as -> by reflexivity.
    assert (optional "start_ts" kvs as_time = Some (ns_start_ts n)) as ->.
    { unfold optional. assert (assoc "start_ts" kvs = Some (opt_json JTime (ns_start_ts n)))
        as -> by reflexivity. by destruct (ns_start_ts n). }
    assert (optional "duration" kvs as_num = Some (ns_duration n)) as ->.
    { unfold optional. assert (assoc "duration" kvs = Some (opt_json JNum (ns_duration n)))
        as -> by reflexivity. by destruct (ns_duration n). }
    assert (optional "status" kvs (λ j, as_str j ≫= status_of_name)
            = Some (Some (ns_status n))) as ->.
    { unfold optional. assert (assoc "status" kvs = Some (JStr (status_name (ns_status n))))
        as -> by reflexivity. cbn. by rewrite status_of_name_name. }
    cbn [default from_option id mbind option_bind as_str as_obj].
    rewrite (validate_to_json _ _ Hstate). cbn [mbind option_bind].
    rewrite bool_decide_eq_true_2 by done.
    rewrite Hnid. cbn [mbind option_bind as_str]. rewrite Hreg. cbn [mbind option_bind].
    rewrite Hpay. done.
  - set (e := end_snaps w !!! l).
    intros (Hstate & Hdata).
    unfold parse_snapshot. cbn [as_obj mbind option_bind].
    set (kvs := [("state", _); ("result", _); ("ts", _); ("kind", _); ("id", _)]).
    assert (assoc "kind" kvs = Some (JStr "end")) as -> by reflexivity.
    assert (assoc "state" kvs = Some (to_json (state_value w (es_state e)))) as ->
      by reflexivity.
    assert (assoc "result" kvs
            = Some (JObj [("data", to_json (end_data (ends w !!! es_result e)))])) as ->
      by reflexivity.
    assert (assoc "ts" kvs = Some (JTime (es_ts e))) as -> by reflexivity.
    assert (optional "id" kvs as_str = Some (Some (es_id e))) as -> by reflexivity.
    cbn [default from_option id mbind option_bind as_str as_obj as_time].
    rewrite (validate_to_json _ _ Hstate). cbn [mbind option_bind].
    rewrite bool_decide_eq_false_2 by done. rewrite bool_decide_eq_true_2 by done.
    assert (assoc "data" [("data", to_json (end_data (ends w !!! es_result e)))]
            = Some (to_json (end_data (ends w !!! es_result e)))) as -> by reflexivity.
    cbn [mbind option_bind]. rewrite (validate_to_json _ _ Hdata). done.
Qed.

Lemma alloc_state_spec v w :
  ∃ st w1, alloc_state v w = (st, w1)
           ∧ state_value w1 st = v ∧ valid_state w1 st
           ∧ (∃ a, states w1 = states w ++ a)
           ∧ nodes w1 = nodes w ∧ ends w1 = ends w ∧ node_snaps w1 = node_snaps w
           ∧ end_snaps w1 = end_snaps w ∧ id_counter w1 = id_counter w.
Proof.
  assert (∃ a, states w = states w ++ a) as Hnil by (exists []; by rewrite app_nil_r).
  destruct v; (eexists _, _; split; [reflexivity |]); cbn;
    rewrite ?lookup_total_snoc, ?length_app; cbn; repeat split; eauto; lia.
Qed.

(** The objects made for a validated snapshot that has an ID: a snapshot with
    those values, next to the objects that were there. *)
Lemma build_snapshot_value p w i :
  parsed_id p = Some i →
  ∃ s w', build_snapshot p w = (s, w')
          ∧ snapshot_value w' s = p ∧ wf_snapshot w' s ∧ grows w w'.
Proof.
  destruct p as [state nid fields start_ts duration status id|state data ts id];
    cbn [parsed_id]; intros ->; unfold build_snapshot;
    destruct (alloc_state_spec state w)
      as (st & w1 & -> & Hsv & Hvs & [a Hstates] & Hn & He & Hns & Hes & Hc);
    (eexists _, _; split; [reflexivity |]).
  - cbn. rewrite !lookup_total_snoc. cbn. rewrite !lookup_total_snoc. cbn.
    assert (state_value
              (with_node_snaps
                 (λ h, h ++ [MkNodeSnapshot st (length (nodes w1)) start_ts duration status i])
                 (with_nodes (λ h, h ++ [MkNode nid fields None]) w1)) st = state) as ->.
    { by destruct st. }
    split; [done |]. rewrite !length_app. cbn. split.
    + repeat split; try lia. by destruct st.
    + repeat split; cbn; eauto; try (eexists; by rewrite ?Hn, ?Hns).
      all: exists []; by rewrite ?Hn, ?He, ?Hns, ?Hes, app_nil_r.
  - cbn. rewrite !lookup_total_snoc. cbn. rewrite !lookup_total_snoc. cbn.
    assert (state_value
              (with_end_snaps
                 (λ h, h ++ [MkEndSnapshot st (length (ends w1)) ts i])
                 (with_ends (λ h, h ++ [MkEnd data None]) w1)) st = state) as ->.
    { by destruct st. }
    split; [done |]. rewrite !length_app. cbn. split.
    + repeat split; try lia. by destruct st.
    + repeat split; cbn; eauto; try (eexists; by rewrite ?He, ?Hes).
      all: exists []; by rewrite ?Hn, ?He, ?Hns, ?Hes, app_nil_r.
Qed.

(** Loading the documents of a history: snapshots with the values of those
    of the history, in their order. *)
Lemma load_dumped ta w h :
  Forall (typed_snapshot ta w) h →
  ∀ wc, ∃ h' w',
    load_snapshots ta (map (dump_snapshot w) h) wc = (w', Ok h')
    ∧ map (snapshot_value w') h' = map (snapshot_value w) h
    ∧ Forall (wf_snapshot w') h'
    ∧ grows wc w'.
Proof.
  induction 1 as [|s h Hs _ IH]; intros wc.
  - exists [], wc. cbn. split; [done |]. split; [done |]. split; [constructor | apply grows_refl].
  - cbn [map load_snapshots]. unfold bind, load_snapshot.
    rewrite (parse_dump_snapshot ta w s Hs).
    assert (∃ i, parsed_id (snapshot_value w s) = Some i) as [i Hi]
      by (destruct s; cbn; eauto).
    destruct (build_snapshot_value _ wc i Hi) as (s' & w1 & -> & Hval & Hwf & Hg1).
    destruct (IH w1) as (h' & w' & -> & Hvals & Hwfs & Hg2).
    exists (s' :: h'), w'. split; [done |].
    destruct (grows_snapshot w1 w' s' Hg2 Hwf) as [Hval' Hwf'].
    cbn [map]. rewrite Hval', Hval, Hvals.
    split; [done |]. split; [by constructor |]. by eapply grows_trans.
Qed.

(** C3: for a history whose snapshots fit the codec that has been set,
    [dump_json] succeeds and [load_json] of its document, into the same
    persistence or into another one with that codec, succeeds and leaves a
    history whose snapshots are equal, field by field and in the same order,
    to those that were dumped; the IDs are those of the document and the
    allocator is not used. *)
Theorem json_round_trip (self other : FullStatePersistence.t) (w : World) (ta : TypeAdapter) :
  FullStatePersistence._snapshots_type_adapter self = Some ta →
  FullStatePersistence._snapshots_type_adapter other = Some ta →
  Forall (typed_snapshot ta w) (FullStatePersistence.history self) →
  ∃ doc other' w',
    FullStatePersistence.dump_json (self, w) = ((self, w), Ok doc)
    ∧ FullStatePersistence.load_json doc (other, w) = ((other', w'), Ok tt)
    ∧ map (snapshot_value w') (FullStatePersistence.history other')
      = map (snapshot_value w) (FullStatePersistence.history self)
    ∧ FullStatePersistence._snapshots_type_adapter other' = Some ta
    ∧ id_counter w' = id_counter w.
Proof.
  intros Hself Hother Htyped.
  destruct (load_dumped ta w _ Htyped w) as (h' & w' & Hload & Hvals & _ & Hg).
  exists (dump_history w (FullStatePersistence.history self)),
    (FullStatePersistence.Mk (FullStatePersistence.deep_copy other) h' (Some ta)), w'.
  unfold FullStatePersistence.dump_json, FullStatePersistence.load_json.
  rewrite Hself, Hother. unfold validate_json, dump_history. rewrite Hload.
  repeat split; try done. apply Hg.
Qed.

(** A store with the history of a run of one step: [Foo:1], then [end:2]. *)
Definition round_trip_store : World :=
  MkWorld [("Foo", [])]
    [TestPersistence.MyState 1 ""; TestPersistence.MyState 2 "y"]
    [MkNode "Foo" [] (Some "Foo:1")] [MkEnd (PInt 4) (Some "end:2")]
    [MkNodeSnapshot (Some 0) 0 (Some 1000%Z) (Some 1%Z) success "Foo:1"]
    [MkEndSnapshot (Some 1) 0 1002 "end:2"] 2 1002 2.

Lemma json_round_trip_witness :
  let ta := MkTypeAdapter TestPersistence.MyState_t TInt [("Foo", [])] in
  let sp := FullStatePersistence.Mk true [RNode 0; REnd 0] (Some ta) in
  let sp2 := FullStatePersistence.Mk true [] (Some ta) in
  ∃ doc sp2' w',
    FullStatePersistence.dump_json (sp, round_trip_store) = ((sp, round_trip_store), Ok doc)
    ∧ FullStatePersistence.load_json doc (sp2, round_trip_store) = ((sp2', w'), Ok tt)
    ∧ map (snapshot_value w') (FullStatePersistence.history sp2')
      = map (snapshot_value round_trip_store) (FullStatePersistence.history sp)
    ∧ FullStatePersistence._snapshots_type_adapter sp2' = Some ta
    ∧ id_counter w' = id_counter round_trip_store.
Proof.
  intros ta sp sp2.
  apply (json_round_trip sp sp2 round_trip_store ta eq_refl eq_refl).
  assert (NoDup (map fst [("x", TInt); ("y", TStr)])) as Hxy.
  { cbn. repeat constructor; rewrite ?elem_of_cons, ?elem_of_nil; intuition discriminate. }
  constructor; [| constructor; [| constructor]].
  - split; [by repeat split |]. exists []. repeat split; [constructor | by intros ?%elem_of_nil].
  - split; [by repeat split | done].
Defined.

(** [test_dump_load_state]: the history of the run on [sp], dumped and loaded
    into the new persistence [sp2], compares equal to that of [sp]. *)
Example test_dump_load_state :
  match FullStatePersistence.dump_json
          (Scenario.set_persistence_types (Scenario.sp, Scenario.w1)).1 with
  | (_, Ok doc) =>
      match (Scenario.set_persistence_types ;; FullStatePersistence.load_json doc)%py
              (FullStatePersistence.new, Scenario.w1) with
      | ((sp2, w2), Ok _) =>
          map (snapshot_value w2) (FullStatePersistence.history sp2)
          = map (snapshot_value Scenario.w1) (FullStatePersistence.history Scenario.sp)
      | _ => False
      end
  | _ => False
  end.
Proof. vm_compute. reflexivity. Qed.

(** * Further properties of [memory.py] *)

(** ** What recording a snapshot adds *)

(** X1: on [FullStatePersistence], [restore] right after [snapshot_node]
    returns the snapshot just recorded, a node snapshot with the status
    [created] and no timing, and right after [snapshot_end] the end snapshot
    just recorded, whose [ts] is the time of the call; on an empty history it
    returns [None]. *)
Theorem full_restore_returns_latest :
  (∀ self w state node,
     ∃ st x,
       FullStatePersistence.snapshot_node state node (self, w) = (st, Ok tt)
       ∧ (FullStatePersistence.snapshot_node state node ;; FullStatePersistence.restore)%py
           (self, w) = (st, Ok (Some (RNode (length (node_snaps w)))))
       ∧ node_snaps st.2 !! length (node_snaps w) = Some x
       ∧ ns_status x = created ∧ ns_start_ts x = None ∧ ns_duration x = None)
  ∧ (∀ self w state e,
       ∃ st x,
         FullStatePersistence.snapshot_end state e (self, w) = (st, Ok tt)
         ∧ (FullStatePersistence.snapshot_end state e ;; FullStatePersistence.restore)%py
             (self, w) = (st, Ok (Some (REnd (length (end_snaps w)))))
         ∧ end_snaps st.2 !! length (end_snaps w) = Some x
         ∧ es_ts x = now_utc w)
  ∧ (∀ deep ta w,
       FullStatePersistence.restore (FullStatePersistence.Mk deep [] ta, w)
       = ((FullStatePersistence.Mk deep [] ta, w), Ok None)).
Proof.
  split; [| split; [| done]].
  - intros self w state node. unfold bind. rewrite full_snapshot_node_capture.
    destruct (capture_node_snaps (FullStatePersistence.deep_copy self) state node w)
      as (w' & x & -> & Hns & _ & _ & _ & _ & _ & _ & Hs & Hts & Hd).
    eexists _, x. split; [reflexivity |]. split.
    + cbn. by rewrite last_snoc.
    + cbn. rewrite Hns. split; [by apply list_lookup_middle | done].
  - intros self w state e. unfold bind. rewrite full_snapshot_end_capture.
    destruct (capture_end_snaps (FullStatePersistence.deep_copy self) state e w)
      as (w' & x & -> & Hes & _ & _ & _ & _ & Hts).
    eexists _, x. split; [reflexivity |]. split.
    + cbn. by rewrite last_snoc.
    + cbn. rewrite Hes. split; [by apply list_lookup_middle | done].
Qed.

(** The store [w'] has every snapshot object and every state object of [w],
    as it was. *)
Definition keeps_snapshots (w w' : World) : Prop :=
  (∀ l n, node_snaps w !! l = Some n → node_snaps w' !! l = Some n)
  ∧ (∀ l n, end_snaps w !! l = Some n → end_snaps w' !! l = Some n)
  ∧ (∀ l v, states w !! l = Some v → states w' !! l = Some v).

Lemma keeps_snapshots_app w w' a b c :
  node_snaps w' = node_snaps w ++ a → end_snaps w' = end_snaps w ++ b →
  states w' = states w ++ c → keeps_snapshots w w'.
Proof.
  intros Hn He Hs. repeat split; intros l x Hl; rewrite ?Hn, ?He, ?Hs;
    by apply lookup_app_l_Some.
Qed.

(** X2: a call of [snapshot_node] or [snapshot_end] that returns has left
    every snapshot object and state object that existed as it was.  On
    [FullStatePersistence] it has added exactly one entry at the end of the
    history, a reference to a snapshot object that did not exist before, and
    has kept the earlier entries, the flag [deep_copy] and the codec; on
    [SimpleStatePersistence] the snapshot that [last_snapshot] referred to
    is still there for whoever holds it. *)
Theorem snapshot_keeps_earlier_snapshots :
  (∀ self w state node self' w',
     FullStatePersistence.snapshot_node state node (self, w) = ((self', w'), Ok tt) →
     FullStatePersistence.history self'
     = FullStatePersistence.history self ++ [RNode (length (node_snaps w))]
     ∧ FullStatePersistence.deep_copy self' = FullStatePersistence.deep_copy self
     ∧ FullStatePersistence._snapshots_type_adapter self'
       = FullStatePersistence._snapshots_type_adapter self
     ∧ length (node_snaps w') = S (length (node_snaps w))
     ∧ end_snaps w' = end_snaps w
     ∧ keeps_snapshots w w')
  ∧ (∀ self w state e self' w',
       FullStatePersistence.snapshot_end state e (self, w) = ((self', w'), Ok tt) →
       FullStatePersistence.history self'
       = FullStatePersistence.history self ++ [REnd (length (end_snaps w))]
       ∧ FullStatePersistence.deep_copy self' = FullStatePersistence.deep_copy self
       ∧ FullStatePersistence._snapshots_type_adapter self'
         = FullStatePersistence._snapshots_type_adapter self
       ∧ length (end_snaps w') = S (length (end_snaps w))
       ∧ node_snaps w' = node_snaps w
       ∧ keeps_snapshots w w')
  ∧ (∀ self w state node self' w',
       SimpleStatePersistence.snapshot_node state node (self, w) = ((self', w'), Ok tt) →
       SimpleStatePersistence.deep_copy self' = SimpleStatePersistence.deep_copy self
       ∧ length (node_snaps w') = S (length (node_snaps w))
       ∧ end_snaps w' = end_snaps w
       ∧ keeps_snapshots w w')
  ∧ (∀ self w state e self' w',
       SimpleStatePersistence.snapshot_end state e (self, w) = ((self', w'), Ok tt) →
       SimpleStatePersistence.deep_copy self' = SimpleStatePersistence.deep_copy self
       ∧ length (end_snaps w') = S (length (end_snaps w))
       ∧ node_snaps w' = node_snaps w
       ∧ keeps_snapshots w w').
Proof.
  assert (∀ deep state node w, ∃ w',
            capture_node deep state node w = (length (node_snaps w), w')
            ∧ length (node_snaps w') = S (length (node_snaps w))
            ∧ end_snaps w' = end_snaps w ∧ keeps_snapshots w w') as Hnode.
  { intros deep state node w.
    destruct (capture_node_snaps deep state node w) as (w' & x & Hc & Hns & Hes & Hst & _).
    exists w'. split; [done |]. split; [rewrite Hns, length_app; cbn; lia |].
    split; [done |]. eapply keeps_snapshots_app; [done | | done].
    by rewrite Hes, app_nil_r. }
  assert (∀ deep state e w, ∃ w',
            capture_end deep state e w = (length (end_snaps w), w')
            ∧ length (end_snaps w') = S (length (end_snaps w))
            ∧ node_snaps w' = node_snaps w ∧ keeps_snapshots w w') as Hend.
  { intros deep state e w.
    destruct (capture_end_snaps deep state e w) as (w' & x & Hc & Hes & Hns & Hst & _).
    exists w'. split; [done |]. split; [rewrite Hes, length_app; cbn; lia |].
    split; [done |]. eapply keeps_snapshots_app; [| done | done].
    by rewrite Hns, app_nil_r. }
  split; [| split; [| split]].
  - intros self w state node self' w'. rewrite full_snapshot_node_capture.
    destruct (Hnode (FullStatePersistence.deep_copy self) state node w)
      as (w1 & -> & Hlen & Hes & Hk).
    by intros [= <- <-].
  - intros self w state e self' w'. rewrite full_snapshot_end_capture.
    destruct (Hend (FullStatePersistence.deep_copy self) state e w)
      as (w1 & -> & Hlen & Hns & Hk).
    by intros [= <- <-].
  - intros self w state node self' w'. rewrite simple_snapshot_node_capture.
    destruct (Hnode (SimpleStatePersistence.deep_copy self) state node w)
      as (w1 & -> & Hlen & Hes & Hk).
    by intros [= <- <-].
  - intros self w state e self' w'. rewrite simple_snapshot_end_capture.
    destruct (Hend (SimpleStatePersistence.deep_copy self) state e w)
      as (w1 & -> & Hlen & Hns & Hk).
    by intros [= <- <-].
Qed.

Lemma snapshot_keeps_earlier_snapshots_witness :
  let full := FullStatePersistence.Mk true [RNode 0; REnd 0] None in
  let st := (FullStatePersistence.snapshot_node (Some 0) 0 (full, round_trip_store)).1 in
  FullStatePersistence.history st.1 = [RNode 0; REnd 0; RNode 1]
  ∧ node_snaps st.2 !! 0
    = Some (MkNodeSnapshot (Some 0) 0 (Some 1000%Z) (Some 1%Z) success "Foo:1").
Proof.
  intros full st.
  destruct (proj1 snapshot_keeps_earlier_snapshots full round_trip_store (Some 0) 0
              st.1 st.2 eq_refl) as (Hh & _ & _ & _ & _ & Hold & _).
  split; [exact Hh | by apply Hold].
Defined.

(** X3: with [deep_copy] off, [snapshot_node] and [snapshot_end] of both
    backends record the very state object they are given, and
    [snapshot_node] the very node: no state object is added, and a later
    assignment to the state shows in the snapshot. *)
Theorem shallow_snapshot_shares_state :
  (∀ self w l node v,
     FullStatePersistence.deep_copy self = false → l < length (states w) →
     ∃ st x,
       FullStatePersistence.snapshot_node (Some l) node (self, w) = (st, Ok tt)
       ∧ node_snaps st.2 !! length (node_snaps w) = Some x
       ∧ ns_state x = Some l ∧ ns_node x = node
       ∧ states st.2 = states w
       ∧ state_value (write_state l v st.2) (ns_state x) = v)
  ∧ (∀ self w l node v,
       SimpleStatePersistence.deep_copy self = false → l < length (states w) →
       ∃ st x,
         SimpleStatePersistence.snapshot_node (Some l) node (self, w) = (st, Ok tt)
         ∧ node_snaps st.2 !! length (node_snaps w) = Some x
         ∧ ns_state x = Some l ∧ ns_node x = node
         ∧ states st.2 = states w
         ∧ state_value (write_state l v st.2) (ns_state x) = v)
  ∧ (∀ self w l e v,
       FullStatePersistence.deep_copy self = false → l < length (states w) →
       ∃ st x,
         FullStatePersistence.snapshot_end (Some l) e (self, w) = (st, Ok tt)
         ∧ end_snaps st.2 !! length (end_snaps w) = Some x
         ∧ es_state x = Some l ∧ es_result x = e
         ∧ states st.2 = states w
         ∧ state_value (write_state l v st.2) (es_state x) = v)
  ∧ (∀ self w l e v,
       SimpleStatePersistence.deep_copy self = false → l < length (states w) →
       ∃ st x,
         SimpleStatePersistence.snapshot_end (Some l) e (self, w) = (st, Ok tt)
         ∧ end_snaps st.2 !! length (end_snaps w) = Some x
         ∧ es_state x = Some l ∧ es_result x = e
         ∧ states st.2 = states w
         ∧ state_value (write_state l v st.2) (es_state x) = v).
Proof.
  assert (∀ w w' l v, l < length (states w) → states w' = states w ++ [] →
            states w' = states w ∧ state_value (write_state l v w') (Some l) = v) as Hshare.
  { intros w w' l v Hl Hst. rewrite app_nil_r in Hst. split; [done |].
    cbn. rewrite Hst. by apply list_lookup_total_insert_eq. }
  split; [| split; [| split]].
  - intros self w l node v Hdeep Hl. rewrite full_snapshot_node_capture, Hdeep.
    destruct (capture_node_snaps false (Some l) node w)
      as (w' & x & -> & Hns & _ & Hst & _ & _ & Hs & Hn & _).
    destruct (Hshare w w' l v Hl Hst) as [Hsame Hv].
    eexists _, x. split; [reflexivity |]. cbn [fst snd]. rewrite Hs. cbn [captured_state].
    repeat split; auto. rewrite Hns. by apply list_lookup_middle.
  - intros self w l node v Hdeep Hl. rewrite simple_snapshot_node_capture, Hdeep.
    destruct (capture_node_snaps false (Some l) node w)
      as (w' & x & -> & Hns & _ & Hst & _ & _ & Hs & Hn & _).
    destruct (Hshare w w' l v Hl Hst) as [Hsame Hv].
    eexists _, x. split; [reflexivity |]. cbn [fst snd]. rewrite Hs. cbn [captured_state].
    repeat split; auto. rewrite Hns. by apply list_lookup_middle.
  - intros self w l e v Hdeep Hl. rewrite full_snapshot_end_capture, Hdeep.
    destruct (capture_end_snaps false (Some l) e w)
      as (w' & x & -> & Hes & _ & Hst & Hs & Hr & _).
    destruct (Hshare w w' l v Hl Hst) as [Hsame Hv].
    eexists _, x. split; [reflexivity |]. cbn [fst snd]. rewrite Hs. cbn [captured_state].
    repeat split; auto. rewrite Hes. by apply list_lookup_middle.
  - intros self w l e v Hdeep Hl. rewrite simple_snapshot_end_capture, Hdeep.
    destruct (capture_end_snaps false (Some l) e w)
      as (w' & x & -> & Hes & _ & Hst & Hs & Hr & _).
    destruct (Hshare w w' l v Hl Hst) as [Hsame Hv].
    eexists _, x. split; [reflexivity |]. cbn [fst snd]. rewrite Hs. cbn [captured_state].
    repeat split; auto. rewrite Hes. by apply list_lookup_middle.
Qed.

Lemma shallow_snapshot_shares_state_witness :
  ∃ st x,
    SimpleStatePersistence.snapshot_node (Some 0) 0
      (SimpleStatePersistence.new, round_trip_store) = (st, Ok tt)
    ∧ node_snaps st.2 !! 1 = Some x
    ∧ ns_state x = Some 0 ∧ ns_node x = 0
    ∧ states st.2 = states round_trip_store
    ∧ state_value (write_state 0 (PInt 7) st.2) (ns_state x) = PInt 7.
Proof.
  apply (proj1 (proj2 shallow_snapshot_shares_state) SimpleStatePersistence.new
           round_trip_store 0 0 (PInt 7)); [reflexivity | cbn; lia].
Defined.

(** X4: a state that is [None] is never copied, whatever [deep_copy] says:
    [prep_state] returns [None] and leaves the store alone, and
    [snapshot_node] and [snapshot_end] of both backends record a snapshot
    whose state is [None] without adding a state object. *)
Theorem none_state_is_not_copied :
  (∀ self w node,
     FullStatePersistence.prep_state self None w = (None, w)
     ∧ ∃ st x,
         FullStatePersistence.snapshot_node None node (self, w) = (st, Ok tt)
         ∧ node_snaps st.2 !! length (node_snaps w) = Some x
         ∧ ns_state x = None ∧ states st.2 = states w)
  ∧ (∀ self w e,
       ∃ st x,
         FullStatePersistence.snapshot_end None e (self, w) = (st, Ok tt)
         ∧ end_snaps st.2 !! length (end_snaps w) = Some x
         ∧ es_state x = None ∧ states st.2 = states w)
  ∧ (∀ self w node,
       SimpleStatePersistence.prep_state self None w = (None, w)
       ∧ ∃ st x,
           SimpleStatePersistence.snapshot_node None node (self, w) = (st, Ok tt)
           ∧ node_snaps st.2 !! length (node_snaps w) = Some x
           ∧ ns_state x = None ∧ states st.2 = states w)
  ∧ (∀ self w e,
       ∃ st x,
         SimpleStatePersistence.snapshot_end None e (self, w) = (st, Ok tt)
         ∧ end_snaps st.2 !! length (end_snaps w) = Some x
         ∧ es_state x = None ∧ states st.2 = states w).
Proof.
  assert (∀ deep node w, ∃ w' x,
            capture_node deep None node w = (length (node_snaps w), w')
            ∧ node_snaps w' !! length (node_snaps w) = Some x
            ∧ ns_state x = None ∧ states w' = states w) as Hnode.
  { intros deep node w.
    destruct (capture_node_snaps deep None node w)
      as (w' & x & Hc & Hns & _ & Hst & _ & _ & Hs & _).
    exists w', x. split; [done |]. rewrite Hns, Hst. cbn. rewrite app_nil_r.
    split; [by apply list_lookup_middle | done]. }
  assert (∀ deep e w, ∃ w' x,
            capture_end deep None e w = (length (end_snaps w), w')
            ∧ end_snaps w' !! length (end_snaps w) = Some x
            ∧ es_state x = None ∧ states w' = states w) as Hend.
  { intros deep e w.
    destruct (capture_end_snaps deep None e w)
      as (w' & x & Hc & Hes & _ & Hst & Hs & _).
    exists w', x. split; [done |]. rewrite Hes, Hst. cbn. rewrite app_nil_r.
    split; [by apply list_lookup_middle | done]. }
  split; [| split; [| split]].
  - intros self w node. split.
    { unfold FullStatePersistence.prep_state. by rewrite orb_true_r. }
    rewrite full_snapshot_node_capture.
    destruct (Hnode (FullStatePersistence.deep_copy self) node w) as (w' & x & -> & H).
    by eexists _, x.
  - intros self w e. rewrite full_snapshot_end_capture.
    destruct (Hend (FullStatePersistence.deep_copy self) e w) as (w' & x & -> & H).
    by eexists _, x.
  - intros self w node. split.
    { unfold SimpleStatePersistence.prep_state. by rewrite orb_true_r. }
    rewrite simple_snapshot_node_capture.
    destruct (Hnode (SimpleStatePersistence.deep_copy self) node w) as (w' & x & -> & H).
    by eexists _, x.
  - intros self w e. rewrite simple_snapshot_end_capture.
    destruct (Hend (SimpleStatePersistence.deep_copy self) e w) as (w' & x & -> & H).
    by eexists _, x.
Qed.

(** ** What the recording region leaves alone *)

(** The store [w'] is [w] but for the timing and the status of the node
    snapshot [l]: every other object, the clocks and the allocator are the
    same, and snapshot [l] has the state, the node and the ID it had. *)
Definition touches_only (l : loc) (w w' : World) : Prop :=
  node_types w' = node_types w ∧ states w' = states w ∧ nodes w' = nodes w
  ∧ ends w' = ends w ∧ end_snaps w' = end_snaps w ∧ id_counter w' = id_counter w
  ∧ utc_clock w' = utc_clock w ∧ perf_clock w' = perf_clock w
  ∧ length (node_snaps w') = length (node_snaps w)
  ∧ (∀ k, k ≠ l → node_snaps w' !! k = node_snaps w !! k)
  ∧ (∀ n, node_snaps w !! l = Some n →
       ∃ n', node_snaps w' !! l = Some n'
             ∧ ns_state n' = ns_state n ∧ ns_node n' = ns_node n ∧ ns_id n' = ns_id n).

Lemma set_node_snap_touches_only l f w :
  (∀ n, ns_state (f n) = ns_state n ∧ ns_node (f n) = ns_node n ∧ ns_id (f n) = ns_id n) →
  touches_only l w (set_node_snap l f w).
Proof.
  intros Hf. unfold touches_only, set_node_snap, with_node_snaps. cbn.
  do 8 (split; [done |]). split; [by rewrite length_alter |]. split.
  - intros k Hk. by apply list_lookup_alter_ne.
  - intros n Hn. exists (f n). rewrite list_lookup_alter_eq, Hn. split; [done | apply Hf].
Qed.

Lemma touches_only_trans l w1 w2 w3 :
  touches_only l w1 w2 → touches_only l w2 w3 → touches_only l w1 w3.
Proof.
  intros (H1 & H2 & H3 & H4 & H5 & H6 & H7 & H8 & H9 & H10 & H11)
         (G1 & G2 & G3 & G4 & G5 & G6 & G7 & G8 & G9 & G10 & G11).
  unfold touches_only. do 9 (split; [congruence |]). split.
  - intros k Hk. rewrite G10, H10; done.
  - intros n Hn. destruct (H11 n Hn) as (n2 & Hn2 & E1 & E2 & E3).
    destruct (G11 n2 Hn2) as (n3 & Hn3 & F1 & F2 & F3).
    exists n3. split; [done |]. repeat split; congruence.
Qed.



Lemma finished_touches_only l s d w : touches_only l w (finished l s d w).
Proof.
  unfold finished. eapply touches_only_trans; by apply set_node_snap_touches_only.
Qed.




Lemma find_snapshot_first w id h1 s h2 :
  Forall (λ r, snapshot_id_of w r ≠ id) h1 →
  snapshot_id_of w s = id →
  FullStatePersistence.find_snapshot w id (h1 ++ s :: h2) = Some s.
Proof.
  intros Hall Hs. induction Hall as [|r h Hr _ IH]; cbn.
  - by rewrite bool_decide_eq_true_2.
  - by rewrite bool_decide_eq_false_2.
Qed.

(** X6: [FullStatePersistence.record_run] acts on the first snapshot of the
    history that has the requested ID, whatever follows it.  When that is a
    node snapshot the region is entered on it and a later snapshot with the
    same ID is left as the body left it; when it is an end snapshot
    [AssertionError] is raised, although a node snapshot with that ID may
    follow. *)
Theorem full_record_run_first_match :
  (∀ A (body : Py _ A) self w id h1 l h2 self' w' r,
     FullStatePersistence.history self = h1 ++ RNode l :: h2 →
     Forall (λ s, snapshot_id_of w s ≠ id) h1 →
     ns_id (node_snaps w !!! l) = id →
     body (self, entered l w) = ((self', w'), r) →
     ∃ w'', FullStatePersistence.record_run id body (self, w) = ((self', w''), r)
            ∧ ∀ k, k ≠ l → node_snaps w'' !! k = node_snaps w' !! k)
  ∧ (∀ A (body : Py _ A) self w id h1 l h2,
       FullStatePersistence.history self = h1 ++ REnd l :: h2 →
       Forall (λ s, snapshot_id_of w s ≠ id) h1 →
       es_id (end_snaps w !!! l) = id →
       FullStatePersistence.record_run id body (self, w)
       = ((self, w), Raise (Exn AssertionError "Only NodeSnapshot can be recorded"))).
Proof.
  split.
  - intros A body self w id h1 l h2 self' w' r Hh Hall Hid Hb.
    assert (FullStatePersistence.find_snapshot w id (FullStatePersistence.history self)
            = Some (RNode l)) as Hf by (rewrite Hh; by apply find_snapshot_first).
    rewrite (full_record_run_unfold _ _ _ _ _ _ Hf), Hb.
    destruct r as [a|e]; [| destruct (is_Exception e)]; eexists;
      (split; [reflexivity |]); try done;
      intros k Hk; by apply (finished_touches_only l).
  - intros A body self w id h1 l h2 Hh Hall Hid.
    unfold FullStatePersistence.record_run.
    rewrite Hh, (find_snapshot_first w id h1 (REnd l) h2); done.
Qed.

(** A store with two node snapshots under the one ID [Foo:1]. *)
Definition twice_recorded : World :=
  with_node_snaps (λ h, h ++ [MkNodeSnapshot None 0 None None created "Foo:1"]) one_snapshot.

Lemma full_record_run_first_match_witness :
  let full := FullStatePersistence.Mk false [RNode 0; RNode 1] None in
  ∃ w'', FullStatePersistence.record_run "Foo:1" (body_returns 5) (full, twice_recorded)
         = ((full, w''), Ok tt)
         ∧ node_snaps w'' !! 1 = Some (MkNodeSnapshot None 0 None None created "Foo:1").
Proof.
  intros full.
  destruct (proj1 full_record_run_first_match unit (body_returns 5) full twice_recorded
              "Foo:1" [] 0 [RNode 1] full (advance_clocks 5 (entered 0 twice_recorded))
              (Ok tt) eq_refl (List.Forall_nil _) eq_refl eq_refl)
    as (w'' & Hrun & Hother).
  exists w''. split; [exact Hrun |]. rewrite (Hother 1); [reflexivity | discriminate].
Defined.

(** X7: the exit of [SimpleStatePersistence.record_run] reads
    [self.last_snapshot] anew.  When the body has put another node snapshot
    [l'] there, the duration and the final status go to [l'], not to the
    snapshot [l] the region was entered on: [l] is left as the body left it,
    so with the status [running] when the body did not write to it. *)
Theorem simple_record_run_follows_last_snapshot
    A (body : Py SimpleStatePersistence.St A) self w id l n self' w' (a : A) l' n' :
  SimpleStatePersistence.last_snapshot self = Some (RNode l) →
  node_snaps w !! l = Some n →
  id = ns_id n →
  body (self, entered l w) = ((self', w'), Ok a) →
  SimpleStatePersistence.last_snapshot self' = Some (RNode l') →
  l' ≠ l →
  node_snaps w' !! l' = Some n' →
  ∃ w'', SimpleStatePersistence.record_run id body (self, w) = ((self', w''), Ok a)
         ∧ touches_only l' w' w''
         ∧ node_snaps w'' !! l'
           = Some (MkNodeSnapshot (ns_state n') (ns_node n') (ns_start_ts n')
                     (Some (perf_clock w' - perf_clock w)%Z) success (ns_id n'))
         ∧ node_snaps w'' !! l = node_snaps w' !! l
         ∧ (node_snaps w' !! l = node_snaps (entered l w) !! l →
            node_snaps w'' !! l
            = Some (MkNodeSnapshot (ns_state n) (ns_node n) (Some (now_utc w))
                      (ns_duration n) running (ns_id n))).
Proof.
  intros Hl Hn -> Hb Hl' Hne Hn'.
  rewrite (simple_record_run_unfold _ body self w _ l Hl), Hb, Hl'
    by (by rewrite (list_lookup_total_correct _ _ _ Hn)).
  eexists. split; [reflexivity |].
  pose proof (finished_touches_only l' success (perf_clock w' - perf_clock w)%Z w') as Ht.
  split; [exact Ht |]. split; [by apply finished_lookup |].
  assert (node_snaps (finished l' success (perf_clock w' - perf_clock w)%Z w') !! l
          = node_snaps w' !! l) as Hsame.
  { apply Ht. done. }
  split; [done |]. intros Hkept. rewrite Hsame, Hkept. by apply entered_lookup.
Qed.

Lemma simple_record_run_follows_last_snapshot_witness :
  let simple := SimpleStatePersistence.Mk false (Some (RNode 0)) in
  ∃ st, SimpleStatePersistence.record_run "Foo:1"
          (SimpleStatePersistence.snapshot_node None 0) (simple, one_snapshot)
        = (st, Ok tt)
        ∧ node_snaps st.2 !! 0
          = Some (MkNodeSnapshot None 0 (Some 1000%Z) None running "Foo:1")
        ∧ node_snaps st.2 !! 1
          = Some (MkNodeSnapshot None 0 None (Some 0%Z) success "Foo:1").
Proof.
  intros simple.
  destruct (simple_record_run_follows_last_snapshot unit
              (SimpleStatePersistence.snapshot_node None 0) simple one_snapshot "Foo:1" 0
              (MkNodeSnapshot None 0 None None created "Foo:1")
              (SimpleStatePersistence.Mk false (Some (RNode 1)))
              (with_node_snaps (λ h, h ++ [MkNodeSnapshot None 0 None None created "Foo:1"])
                 (entered 0 one_snapshot))
              tt 1 (MkNodeSnapshot None 0 None None created "Foo:1")
              eq_refl eq_refl eq_refl eq_refl eq_refl ltac:(discriminate) eq_refl)
    as (w'' & Hrun & _ & Hnew & _ & Hold).
  eexists. split; [exact Hrun |]. split; [exact (Hold eq_refl) | exact Hnew].
Defined.

(** ** [set_types] and the codec *)

(** X8: when the callback of [set_types] raises, the exception is handed on
    and no codec is set, so [dump_json] still raises [AssertionError] and the
    next call of [set_types] invokes its callback and builds the codec from
    the types that one returns. *)
Theorem set_types_failure_sets_nothing
    (self : FullStatePersistence.t) (w w1 : World)
    (get_types : Py World (pytype * pytype)) (e : exn) :
  FullStatePersistence._snapshots_type_adapter self = None →
  get_types w = (w1, Raise e) →
  FullStatePersistence.set_types get_types (self, w) = ((self, w1), Raise e)
  ∧ FullStatePersistence.dump_json (self, w1)
    = ((self, w1), Raise (Exn AssertionError "type adapter must be set to use `dump_json`"))
  ∧ ∀ (get_types' : Py World (pytype * pytype)) w2 state_t run_end_t,
      get_types' w1 = (w2, Ok (state_t, run_end_t)) →
      ∃ self',
        FullStatePersistence.set_types get_types' (self, w1) = ((self', w2), Ok tt)
        ∧ FullStatePersistence._snapshots_type_adapter self'
          = Some (build_snapshot_list_type_adapter state_t run_end_t w2)
        ∧ FullStatePersistence.history self' = FullStatePersistence.history self
        ∧ FullStatePersistence.deep_copy self' = FullStatePersistence.deep_copy self.
Proof.
  intros Hta Hg. unfold FullStatePersistence.set_types, FullStatePersistence.dump_json.
  rewrite Hta, Hg. split; [done |]. split; [done |].
  intros get_types' w2 state_t run_end_t ->. by eexists.
Qed.

Lemma set_types_failure_sets_nothing_witness :
  FullStatePersistence.set_types (raise (Exn TypeError "no generic argument"))
    (FullStatePersistence.new, empty_world)
  = ((FullStatePersistence.new, empty_world), Raise (Exn TypeError "no generic argument")).
Proof.
  apply (set_types_failure_sets_nothing FullStatePersistence.new empty_world empty_world
           (raise (Exn TypeError "no generic argument")) (Exn TypeError "no generic argument")
           eq_refl eq_refl).
Defined.

(** X9: without a codec [dump_json] and [load_json] raise [AssertionError]
    and change nothing, [load_json] whatever the document; [dump_json] never
    changes the persistence or the store; a [load_json] that raises leaves
    the history, the flag and the codec as they were; and after a call of
    [set_types] that returned, [dump_json] returns a document. *)
Theorem json_needs_codec :
  (∀ self w,
     FullStatePersistence._snapshots_type_adapter self = None →
     FullStatePersistence.dump_json (self, w)
     = ((self, w), Raise (Exn AssertionError "type adapter must be set to use `dump_json`")))
  ∧ (∀ self w doc,
       FullStatePersistence._snapshots_type_adapter self = None →
       FullStatePersistence.load_json doc (self, w)
       = ((self, w), Raise (Exn AssertionError "type adapter must be set to use `load_json`")))
  ∧ (∀ self w, (FullStatePersistence.dump_json (self, w)).1 = (self, w))
  ∧ (∀ self w doc st' e,
       FullStatePersistence.load_json doc (self, w) = (st', Raise e) → st'.1 = self)
  ∧ (∀ self w get_types st1,
       FullStatePersistence.set_types get_types (self, w) = (st1, Ok tt) →
       FullStatePersistence.dump_json st1
       = (st1, Ok (dump_history st1.2 (FullStatePersistence.history st1.1)))).
Proof.
  unfold FullStatePersistence.dump_json, FullStatePersistence.load_json,
    FullStatePersistence.set_types.
  split; [| split; [| split; [| split]]].
  - by intros self w ->.
  - by intros self w doc ->.
  - intros self w. by destruct (FullStatePersistence._snapshots_type_adapter self).
  - intros self w doc st' e.
    destruct (FullStatePersistence._snapshots_type_adapter self) as [ta|].
    + destruct (validate_json ta doc w) as [w' [h|e']]; by intros [= <- <-].
    + by intros [= <- <-].
  - intros self w get_types [self1 w1].
    destruct (FullStatePersistence._snapshots_type_adapter self) as [ta|] eqn:Hta.
    + intros [= <- <-]. by rewrite Hta.
    + destruct (get_types w) as [w' [[state_t run_end_t]|e]]; by intros [= <- <-].
Qed.

Lemma json_needs_codec_witness :
  FullStatePersistence.load_json (JArr []) (FullStatePersistence.new, empty_world)
  = ((FullStatePersistence.new, empty_world),
     Raise (Exn AssertionError "type adapter must be set to use `load_json`")).
Proof.
  apply (proj1 (proj2 json_needs_codec) FullStatePersistence.new empty_world (JArr [])).
  reflexivity.
Defined.

Lemma extends_keeps w w' : extends w w' → keeps_snapshots w w'.
Proof. intros ([a1 H1] & [a2 H2] & [a3 H3]). by eapply keeps_snapshots_app. Qed.

(** X10: a [load_json] that returns has replaced the history, not added to
    it: the document is an array and the history has one entry for each of
    its items, every entry a snapshot object that did not exist before, so
    none of the former entries is left; the snapshot and state objects that
    existed are as they were, and the flag [deep_copy] and the codec are
    kept. *)
Theorem load_json_replaces_history self w ta doc self' w' :
  FullStatePersistence._snapshots_type_adapter self = Some ta →
  FullStatePersistence.load_json doc (self, w) = ((self', w'), Ok tt) →
  (∃ items, doc = JArr items
            ∧ length (FullStatePersistence.history self') = length items)
  ∧ Forall (λ s, valid_snapshot w' s ∧ ¬ valid_snapshot w s)
           (FullStatePersistence.history self')
  ∧ (∀ s, s ∈ FullStatePersistence.history self → valid_snapshot w s →
          s ∉ FullStatePersistence.history self')
  ∧ keeps_snapshots w w'
  ∧ FullStatePersistence.deep_copy self' = FullStatePersistence.deep_copy self
  ∧ FullStatePersistence._snapshots_type_adapter self' = Some ta.
Proof.
  intros Hta. unfold FullStatePersistence.load_json. rewrite Hta.
  destruct (validate_json ta doc w) as [w1 [h|e]] eqn:Hv; [| by intros [= ]].
  intros [= <- <-]. cbn.
  unfold validate_json in Hv. destruct doc as [| | | | |items|]; try by inversion Hv.
  destruct (load_snapshots_fresh ta items w w1 h Hv) as (Hlen & Hall & Hext).
  split; [eauto |]. split; [done |]. split; [| split; [by apply extends_keeps | done]].
  intros s _ Hold Hin. rewrite Forall_forall in Hall. by destruct (Hall s Hin).
Qed.

Lemma load_json_replaces_history_witness :
  let ta := MkTypeAdapter TestPersistence.MyState_t TInt [("Foo", [])] in
  let sp := FullStatePersistence.Mk true [RNode 0; REnd 0] (Some ta) in
  let doc := JArr [JObj [("kind", JStr "end");
                         ("state", JObj [("x", JNum 1); ("y", JStr "a")]);
                         ("result", JObj [("data", JNum 7)]); ("ts", JTime 5)]] in
  ∃ self' w',
    FullStatePersistence.load_json doc (sp, round_trip_store) = ((self', w'), Ok tt)
    ∧ length (FullStatePersistence.history self') = 1
    ∧ RNode 0 ∉ FullStatePersistence.history self'.
Proof.
  intros ta sp doc.
  destruct (FullStatePersistence.load_json doc (sp, round_trip_store))
    as [[self' w'] r] eqn:Hload.
  assert (r = Ok tt) as -> by (vm_compute in Hload; by injection Hload as <- <- <-).
  destruct (load_json_replaces_history sp round_trip_store ta doc self' w' eq_refl Hload)
    as ((items & Hdoc & Hlen) & _ & Hdrop & _).
  exists self', w'. split; [done |]. split.
  - rewrite Hlen. by injection Hdoc as <-.
  - apply Hdrop; [apply list_elem_of_here | cbn; lia].
Defined.

(** ** Recording a snapshot, then its run *)

Lemma find_snapshot_id w id h s :
  FullStatePersistence.find_snapshot w id h = Some s → snapshot_id_of w s = id.
Proof.
  induction h as [|r h IH]; cbn; [done |].
  case_bool_decide as Hr; [by intros [= <-] | exact IH].
Qed.

(** X11: the snapshot that [snapshot_node] has just recorded can be run
    under its ID.  On [SimpleStatePersistence] the region is always entered
    on it; on [FullStatePersistence] it is when no earlier entry of the
    history has that ID.  The region then ends as for any snapshot: by the
    way the body ends, with the duration and [success] or [error]. *)
Theorem record_run_after_snapshot_node :
  (∀ A (body : Py _ A) self w state node,
     let l := length (node_snaps w) in
     ∃ self1 w1,
       SimpleStatePersistence.snapshot_node state node (self, w) = ((self1, w1), Ok tt)
       ∧ ∀ self' w' r,
           body (self1, entered l w1) = ((self', w'), r) →
           SimpleStatePersistence.last_snapshot self' = Some (RNode l) →
           region_outcome
             (SimpleStatePersistence.record_run (ns_id (node_snaps w1 !!! l)) body (self1, w1))
             self' w1 w' l r)
  ∧ (∀ A (body : Py _ A) self w state node,
       let l := length (node_snaps w) in
       ∃ self1 w1,
         FullStatePersistence.snapshot_node state node (self, w) = ((self1, w1), Ok tt)
         ∧ (Forall (valid_snapshot w) (FullStatePersistence.history self) →
            Forall (λ s, snapshot_id_of w s ≠ ns_id (node_snaps w1 !!! l))
                   (FullStatePersistence.history self) →
            ∀ self' w' r,
              body (self1, entered l w1) = ((self', w'), r) →
              region_outcome
                (FullStatePersistence.record_run (ns_id (node_snaps w1 !!! l)) body (self1, w1))
                self' w1 w' l r)).
Proof.
  split.
  - intros A body self w state node l. subst l. rewrite simple_snapshot_node_capture.
    destruct (capture_node_snaps (SimpleStatePersistence.deep_copy self) state node w)
      as (w1 & x & -> & Hns & _).
    eexists _, w1. split; [reflexivity |]. intros self' w' r Hb Hl'.
    rewrite (simple_record_run_unfold _ body
               (SimpleStatePersistence.Mk (SimpleStatePersistence.deep_copy self)
                  (Some (RNode (length (node_snaps w))))) w1 _ (length (node_snaps w))
               eq_refl eq_refl), Hb, Hl'.
    destruct r as [a|e]; cbn; [done |]. by destruct (is_Exception e).
  - intros A body self w state node l. subst l. rewrite full_snapshot_node_capture.
    destruct (capture_node_snaps (FullStatePersistence.deep_copy self) state node w)
      as (w1 & x & -> & Hns & Hes & _).
    eexists _, w1. split; [reflexivity |]. intros Hvalid Hnew self' w' r Hb.
    assert (FullStatePersistence.find_snapshot w1
              (ns_id (node_snaps w1 !!! length (node_snaps w)))
              (FullStatePersistence.history
                 (FullStatePersistence.append (RNode (length (node_snaps w))) self))
            = Some (RNode (length (node_snaps w)))) as Hf.
    { apply find_snapshot_new; [| done].
      rewrite Forall_forall in Hvalid, Hnew. apply Forall_forall. intros s Hs.
      rewrite (snapshot_id_of_grow w w1 s [x] (Hvalid s Hs) Hns Hes). by apply Hnew. }
    rewrite (full_record_run_unfold _ _ _ _ _ _ Hf), Hb.
    destruct r as [a|e]; cbn; [done |]. by destruct (is_Exception e).
Qed.

Lemma record_run_after_snapshot_node_witness :
  let full := FullStatePersistence.Mk false [] None in
  ∃ st, FullStatePersistence.snapshot_node None 0 (full, one_snapshot) = (st, Ok tt)
        ∧ FullStatePersistence.record_run "Foo:1" (body_returns 5) st
          = ((st.1, finished 1 success 5 (advance_clocks 5 (entered 1 st.2))), Ok tt).
Proof.
  intros full.
  destruct (proj2 record_run_after_snapshot_node unit (body_returns 5) full one_snapshot
              None 0) as (self1 & w1 & Hsnap & Hrun).
  exists (self1, w1). split; [exact Hsnap |].
  injection Hsnap as <- <-.
  apply (Hrun (List.Forall_nil _) (List.Forall_nil _) _ _ (Ok tt) eq_refl).
Defined.

(** ** The two backends *)

(** X12: the two backends do the same to the store.  With the same flag
    [deep_copy], [snapshot_node] and [snapshot_end] of
    [FullStatePersistence] and of [SimpleStatePersistence] leave the same
    store, and [restore] then returns the same snapshot; and around a body
    that acts on the store only, [record_run] of the two, the one having
    located the snapshot that is the other's last, leaves the same store and
    ends in the same way. *)
Theorem backends_agree :
  (∀ full simple w state node,
     FullStatePersistence.deep_copy full = SimpleStatePersistence.deep_copy simple →
     (FullStatePersistence.snapshot_node state node (full, w)).1.2
     = (SimpleStatePersistence.snapshot_node state node (simple, w)).1.2
     ∧ ((FullStatePersistence.snapshot_node state node ;; FullStatePersistence.restore)%py
          (full, w)).2
       = ((SimpleStatePersistence.snapshot_node state node
           ;; SimpleStatePersistence.restore)%py (simple, w)).2)
  ∧ (∀ full simple w state e,
       FullStatePersistence.deep_copy full = SimpleStatePersistence.deep_copy simple →
       (FullStatePersistence.snapshot_end state e (full, w)).1.2
       = (SimpleStatePersistence.snapshot_end state e (simple, w)).1.2
       ∧ ((FullStatePersistence.snapshot_end state e ;; FullStatePersistence.restore)%py
            (full, w)).2
         = ((SimpleStatePersistence.snapshot_end state e
             ;; SimpleStatePersistence.restore)%py (simple, w)).2)
  ∧ (∀ A (b : Py World A) full simple w id l,
       FullStatePersistence.find_snapshot w id (FullStatePersistence.history full)
       = Some (RNode l) →
       SimpleStatePersistence.last_snapshot simple = Some (RNode l) →
       ∃ w' r,
         FullStatePersistence.record_run id (lift b) (full, w) = ((full, w'), r)
         ∧ SimpleStatePersistence.record_run id (lift b) (simple, w) = ((simple, w'), r)).
Proof.
  split; [| split].
  - intros full simple w state node Hdeep. unfold bind.
    rewrite full_snapshot_node_capture, simple_snapshot_node_capture, Hdeep.
    destruct (capture_node _ state node w) as [s w'] eqn:Hc.
    destruct (capture_node_snaps (SimpleStatePersistence.deep_copy simple) state node w)
      as (w'' & x & Hc' & _).
    rewrite Hc in Hc'. injection Hc' as -> <-. cbn. by rewrite last_snoc.
  - intros full simple w state e Hdeep. unfold bind.
    rewrite full_snapshot_end_capture, simple_snapshot_end_capture, Hdeep.
    destruct (capture_end _ state e w) as [s w'] eqn:Hc.
    destruct (capture_end_snaps (SimpleStatePersistence.deep_copy simple) state e w)
      as (w'' & x & Hc' & _).
    rewrite Hc in Hc'. injection Hc' as -> <-. cbn. by rewrite last_snoc.
  - intros A b full simple w id l Hf Hl.
    assert (id = ns_id (node_snaps w !!! l)) as Hid
      by (symmetry; apply (find_snapshot_id _ _ _ _ Hf)).
    rewrite (full_record_run_unfold _ _ _ _ _ _ Hf).
    rewrite (simple_record_run_unfold _ _ _ _ _ _ Hl Hid).
    unfold lift. destruct (b (entered l w)) as [w' [a|e]].
    + rewrite Hl. by eexists _, _.
    + destruct (is_Exception e); [rewrite Hl |]; by eexists _, _.
Qed.

Lemma backends_agree_witness :
  let full := FullStatePersistence.Mk false [RNode 0] None in
  let simple := SimpleStatePersistence.Mk false (Some (RNode 0)) in
  let b : Py World unit := λ w, (advance_clocks 5 w, Raise (Exn RuntimeError "boom")) in
  ∃ w' r,
    FullStatePersistence.record_run "Foo:1" (lift b) (full, one_snapshot) = ((full, w'), r)
    ∧ SimpleStatePersistence.record_run "Foo:1" (lift b) (simple, one_snapshot)
      = ((simple, w'), r).
Proof.
  intros full simple b.
  apply (proj2 (proj2 backends_agree) unit b full simple one_snapshot "Foo:1" 0
           eq_refl eq_refl).
Defined.
